(** * nucypher: peer addresses, node URIs and the availability sensor

    A shallow embedding of [nucypher/network/protocols.py]:
    [parse_node_uri], the class [InterfaceInfo] and the class
    [AvailabilitySensor], together with the parts of the Python runtime
    and standard library they call ([str]/[bytes] methods, UTF-8,
    [int.to_bytes]/[int.from_bytes], [urllib.parse.urlparse],
    [collections.deque], [twisted.logger.Logger]).

    Conventions.
    - A Python [str] is its list of code points, a [bytes] object its
      list of byte values; both are lists of [Z].
    - A call that may raise returns an [outcome]; methods of the sensor
      run in a state-and-exception monad over a [World] made of the
      sensor object and a trace of observable events.  State written
      before an exception is raised is kept, as in Python.
    - [score] is a Python float obtained by true division of two small
      non-negative integers [n / d] with [n <= d].  It is modelled by the
      exact rational.  The program only compares it with integers, and for
      [d <= 2^53] correctly rounded division gives a float [>= 1]
      exactly when [n = d] and never one above [1], so these comparisons
      agree with the exact ones. *)

From Stdlib Require Import ZArith List Bool String Ascii Lia QArith.
Import ListNotations.

Local Open Scope Z_scope.

(** ** Exceptions and outcomes *)

Inductive exn : Type :=
| ValueError (msg : string)
| TypeError (msg : string)
| AttributeError (attr : string)
| OverflowError (msg : string)
| ZeroDivisionError
| UnicodeEncodeError
| UnicodeDecodeError
| Unreachable (msg : list Z).

Inductive outcome (A : Type) : Type :=
| Ok (a : A)
| Raise (e : exn).

Arguments Ok {A} a.
Arguments Raise {A} e.

Definition rbind {A B} (r : outcome A) (k : A -> outcome B) : outcome B :=
  match r with
  | Ok a => k a
  | Raise e => Raise e
  end.

Declare Scope outcome_scope.
Delimit Scope outcome_scope with res.
Notation "x <- c ;; k" := (rbind c (fun x => k))
  (at level 61, c at next level, right associativity) : outcome_scope.
Notation "' p <- c ;; k" := (rbind c (fun x => match x with p => k end))
  (at level 61, p pattern, c at next level, right associativity) : outcome_scope.

(** ** Python strings and bytes *)

Module Py.

Definition str := list Z.
Definition bytes := list Z.

(** A string literal, as the list of its code points. *)
Definition lit (s : string) : str :=
  map (fun a => Z.of_N (N_of_ascii a)) (list_ascii_of_string s).

Fixpoint eqb (s t : list Z) : bool :=
  match s, t with
  | [], [] => true
  | c :: s', d :: t' => (c =? d) && eqb s' t'
  | _, _ => false
  end.

Definition len {A} (s : list A) : Z := Z.of_nat (List.length s).

(** [c in s] for a one-character [c]. *)
Definition contains (c : Z) (s : list Z) : bool := existsb (Z.eqb c) s.

(** [s.startswith(p)] *)
Fixpoint startswith (p s : list Z) : bool :=
  match p, s with
  | [], _ => true
  | c :: p', d :: s' => (c =? d) && startswith p' s'
  | _ :: _, [] => false
  end.

(** [s.find(c)] for a one-character [c]: the first index, or [-1]. *)
Fixpoint find (c : Z) (s : list Z) : Z :=
  match s with
  | [] => -1
  | d :: s' => if d =? c then 0
               else let i := find c s' in if i <? 0 then -1 else i + 1
  end.

(** [s.rfind(c)]: the last index, or [-1]. *)
Fixpoint rfind (c : Z) (s : list Z) : Z :=
  match s with
  | [] => -1
  | d :: s' => let i := rfind c s' in
               if 0 <=? i then i + 1 else if d =? c then 0 else -1
  end.

(** The slices [s[:i]], [s[i:]] and [s[i:j]] for non-negative indices. *)
Definition upto (i : Z) (s : list Z) : list Z := firstn (Z.to_nat i) s.
Definition from (i : Z) (s : list Z) : list Z := skipn (Z.to_nat i) s.
Definition slice (i j : Z) (s : list Z) : list Z := upto (j - i) (from i s).

(** [s.find(c, start)] for [0 <= start]. *)
Definition find_from (c : Z) (start : Z) (s : list Z) : Z :=
  if len s <? start then -1
  else let i := find c (from start s) in if i <? 0 then -1 else start + i.

(** [s.split(sep)] ([maxsplit = None]) and [s.split(sep, n)]
    ([maxsplit = Some n]) for a one-element separator. *)
Fixpoint split (sep : Z) (maxsplit : option nat) (s : list Z)
  : list (list Z) :=
  match maxsplit with
  | Some O => [s]
  | _ =>
    match s with
    | [] => [[]]
    | c :: s' =>
      if c =? sep then [] :: split sep (option_map Nat.pred maxsplit) s'
      else match split sep maxsplit s' with
           | p :: ps => (c :: p) :: ps
           | [] => [[c]]
           end
    end
  end.

(** [s.partition(sep)]: text before the first [sep], whether it was
    found, text after it. *)
Fixpoint partition (sep : Z) (s : list Z) : list Z * bool * list Z :=
  match s with
  | [] => ([], false, [])
  | c :: s' =>
    if c =? sep then ([], true, s')
    else let '(a, found, b) := partition sep s' in (c :: a, found, b)
  end.

(** [s.rpartition(sep)]: split at the last [sep]; when there is none the
    whole string is the third component. *)
Definition rpartition (sep : Z) (s : list Z) : list Z * bool * list Z :=
  let i := rfind sep s in
  if i <? 0 then ([], false, s) else (upto i s, true, from (i + 1) s).

(** [s.replace(c, '')] *)
Definition remove (c : Z) (s : list Z) : list Z :=
  filter (fun d => negb (d =? c)) s.

(** The tuple assignment [a, b = parts]. *)
Definition unpack2 {A} (parts : list A) : outcome (A * A) :=
  match parts with
  | [a; b] => Ok (a, b)
  | _ :: _ :: _ :: _ => Raise (ValueError "too many values to unpack (expected 2)")
  | _ => Raise (ValueError "not enough values to unpack (expected 2)")
  end.

Definition isascii (s : str) : bool := forallb (fun c => (0 <=? c) && (c <? 128)) s.

(** [s.lower()] on ASCII text: only [A]..[Z] change.  Outside ASCII
    Python consults the Unicode database, which is not modelled; the
    statements below that depend on [lower] are about ASCII strings. *)
Definition lower (s : str) : str :=
  map (fun c => if (65 <=? c) && (c <=? 90) then c + 32 else c) s.

(** *** UTF-8 *)

Definition is_surrogate (c : Z) : bool := (55296 <=? c) && (c <=? 57343).

(** A code point that [str.encode("utf-8")] accepts. *)
Definition scalar_value (c : Z) : Prop :=
  0 <= c < 1114112 /\ is_surrogate c = false.

Definition utf8_encode_char (c : Z) : outcome bytes :=
  if c <? 128 then Ok [c]
  else if c <? 2048 then Ok [192 + c / 64; 128 + c mod 64]
  else if c <? 65536 then
    if is_surrogate c then Raise UnicodeEncodeError
    else Ok [224 + c / 4096; 128 + (c / 64) mod 64; 128 + c mod 64]
  else Ok [240 + c / 262144; 128 + (c / 4096) mod 64;
           128 + (c / 64) mod 64; 128 + c mod 64].

(** [bytes(s, encoding="utf-8")] *)
Fixpoint utf8_encode (s : str) : outcome bytes :=
  match s with
  | [] => Ok []
  | c :: s' =>
    (b <- utf8_encode_char c ;;
     bs <- utf8_encode s' ;;
     Ok (b ++ bs))%res
  end.

Definition is_cont (b : Z) : bool := (128 <=? b) && (b <? 192).

(** [b.decode("utf-8")], strict: overlong forms, surrogates, values
    above U+10FFFF and truncated sequences are rejected. *)
Fixpoint utf8_decode (b : bytes) : outcome str :=
  match b with
  | [] => Ok []
  | b0 :: r0 =>
    if (0 <=? b0) && (b0 <? 128) then
      (s <- utf8_decode r0 ;; Ok (b0 :: s))%res
    else if (194 <=? b0) && (b0 <? 224) then
      match r0 with
      | b1 :: r1 =>
        if is_cont b1 then
          (s <- utf8_decode r1 ;;
           Ok ((b0 - 192) * 64 + (b1 - 128) :: s))%res
        else Raise UnicodeDecodeError
      | _ => Raise UnicodeDecodeError
      end
    else if (224 <=? b0) && (b0 <? 240) then
      match r0 with
      | b1 :: b2 :: r2 =>
        let c := (b0 - 224) * 4096 + (b1 - 128) * 64 + (b2 - 128) in
        if is_cont b1 && is_cont b2 && (2048 <=? c) && negb (is_surrogate c)
        then (s <- utf8_decode r2 ;; Ok (c :: s))%res
        else Raise UnicodeDecodeError
      | _ => Raise UnicodeDecodeError
      end
    else if (240 <=? b0) && (b0 <? 245) then
      match r0 with
      | b1 :: b2 :: b3 :: r3 =>
        let c := (b0 - 240) * 262144 + (b1 - 128) * 4096
                 + (b2 - 128) * 64 + (b3 - 128) in
        if is_cont b1 && is_cont b2 && is_cont b3
           && (65536 <=? c) && (c <? 1114112)
        then (s <- utf8_decode r3 ;; Ok (c :: s))%res
        else Raise UnicodeDecodeError
      | _ => Raise UnicodeDecodeError
      end
    else Raise UnicodeDecodeError
  end.

(** *** Integers and bytes *)

(** The [n] base-256 digits of [v], most significant first. *)
Fixpoint digits_big (n : nat) (v : Z) : bytes :=
  match n with
  | O => []
  | S n' => digits_big n' (v / 256) ++ [v mod 256]
  end.

(** [v.to_bytes(n, "big")] *)
Definition to_bytes_big (n : nat) (v : Z) : outcome bytes :=
  if v <? 0 then Raise (OverflowError "can't convert negative int to unsigned")
  else if 256 ^ Z.of_nat n <=? v then Raise (OverflowError "int too big to convert")
  else Ok (digits_big n v).

(** [int.from_bytes(b, "big")] *)
Definition from_bytes_big (b : bytes) : Z :=
  fold_left (fun acc d => acc * 256 + d) b 0.

(** *** Integers as text *)

(** The decimal digits of [n >= 0], most significant first.  [fuel]
    bounds the number of digits: one binary digit of fuel is spent for
    each decimal digit written. *)
Fixpoint dec_digits (fuel : positive) (n : Z) : str :=
  if n <? 10 then [48 + n]
  else match fuel with
       | xH => [48 + n mod 10]
       | xO fuel' | xI fuel' => dec_digits fuel' (n / 10) ++ [48 + n mod 10]
       end.

(** [str(n)], which is also what [format] writes for an [int]. *)
Definition repr_int (n : Z) : str :=
  if n <? 0 then 45 :: dec_digits (Z.to_pos (- n)) (- n)
  else dec_digits (Z.to_pos n) n.

End Py.

(** ** class InterfaceInfo *)

Module InterfaceInfo.
Import Py.

Record t : Type := { host : str; port : Z }.

Definition __init__ (host : str) (port : Z) : t :=
  let loopback := lit "127.0.0.1" in
  let localhost := lit "localhost" in
  {| host := if eqb host localhost then loopback else host;
     port := port |}.

Definition from_bytes (url_string : bytes) : outcome t :=
  ('(host_bytes, port_bytes) <- unpack2 (split 58 (Some 1%nat) url_string) ;;
   let port := from_bytes_big port_bytes in
   host <- utf8_decode host_bytes ;;
   Ok (__init__ host port))%res.

Definition __bytes__ (self : t) : outcome bytes :=
  (h <- utf8_encode (host self) ;;
   p <- to_bytes_big 4 (port self) ;;
   Ok (h ++ lit ":" ++ p))%res.

(** The property [uri]: [u"{}:{}".format(self.host, self.port)]. *)
Definition uri (self : t) : str :=
  host self ++ lit ":" ++ repr_int (port self).

(** The property [formal_uri]. *)
Definition formal_uri (self : t) : str :=
  lit "https" ++ lit "://" ++ uri self.

(** [self + other] and [other + self], where [other] is another
    address: the two encodings, one after the other. *)
Definition __add__ (self other : t) : outcome bytes :=
  (a <- __bytes__ self ;; b <- __bytes__ other ;; Ok (a ++ b))%res.

Definition __radd__ (self other : t) : outcome bytes :=
  (b <- __bytes__ other ;; a <- __bytes__ self ;; Ok (b ++ a))%res.

Definition __repr__ (self : t) : str := uri self.

End InterfaceInfo.

(** ** collections.deque and dict *)

Module Collections.

Record deque (A : Type) : Type := { maxlen : Z; items : list A }.
Arguments maxlen {A} d.
Arguments items {A} d.

(** [deque(maxlen=n)] *)
Definition deque_new {A} (n : Z) : outcome (deque A) :=
  if n <? 0 then Raise (ValueError "maxlen must be non-negative")
  else Ok {| maxlen := n; items := [] |}.

(** [d.append(x)]: add on the right, then drop from the left what
    exceeds [maxlen]. *)
Definition append {A} (x : A) (d : deque A) : deque A :=
  let l := items d ++ [x] in
  {| maxlen := maxlen d;
     items := if maxlen d <? Z.of_nat (List.length l) then tl l else l |}.

(** A [dict] with integer keys, in insertion order. *)
Definition dict (V : Type) : Type := list (Z * V).

(** [d[k] = v]: an existing key keeps its position and takes the new
    value; a new key goes last.  A dict display [{k1: v1, k2: v2, ...}]
    stores its entries this way from left to right. *)
Fixpoint setitem {V} (k : Z) (v : V) (d : dict V) : dict V :=
  match d with
  | [] => [(k, v)]
  | (k', v') :: d' =>
    if k' =? k then (k', v) :: d' else (k', v') :: setitem k v d'
  end.

End Collections.

(** ** class AvailabilitySensor *)

Module AvailabilitySensor.
Import Py Collections.

Definition DEFAULT_INTERVAL : Z := 60 * 2.
Definition DEFAULT_SAMPLE_SIZE : Z := 3.
Definition DEFAULT_SENSITIVITY : Z := 2.
Definition DEFAULT_RETENTION : Z := 10.
Definition MAXIMUM_ALONE_TIME : Z := 60 * 2.

(** The named tuple [Record]. *)
Record Record_ : Type := { time : Z; result : bool }.

(** The three bound methods stored in [self.warnings]. *)
Inductive Action : Type := Mild | Medium | Severe.

(** The level methods of [twisted.logger.Logger]: [debug], [info],
    [warn], [error] and [critical].  The class has no [__getattr__], so
    any other method name raises [AttributeError]. *)
Inductive LogLevel : Type := debug | info | warn | error | critical.

Definition Logger_getattr (name : string) : option LogLevel :=
  if String.eqb name "debug" then Some debug
  else if String.eqb name "info" then Some info
  else if String.eqb name "warn" then Some warn
  else if String.eqb name "error" then Some error
  else if String.eqb name "critical" then Some critical
  else None.

Definition Peer : Type := Z.

(** Where an escalation action is called from: line 180 of [maintain],
    or the loop of [issue_warnings]. *)
Inductive CallSite : Type := InMaintain | InIssueWarnings.

(** What a run of the sensor does that can be observed from outside. *)
Inductive Event : Type :=
| Invoked (site : CallSite) (a : Action)
| Logged (level : LogLevel) (msg : str)
| Sampled (quantity : Z)
| Probed (p : Peer).

(** The owning node and the other collaborators, as one call of a sensor
    method finds them. *)
Record Env : Type := {
  known_nodes : list Peer;
  lonely : bool;
  rest_url : str;
  ursula_str : str;                            (* [str(self._ursula)] *)
  network_middleware_measure : Peer -> outcome Z;  (* the status code *)
  now : Z;                                     (* [maya.now().epoch] *)
  random_sample : list Peer -> Z -> list Peer
}.

Record Sensor : Type := {
  interval : Z;
  sample_size : Z;
  sensitivity : Z;
  retention : Z;
  warnings : dict Action;
  _sample_size : Z;
  _records : deque Record_;
  __start_time : option Z;
  __task_running : bool
}.

(** Assignments to the attributes that change after construction. *)
Definition set__records (f : deque Record_ -> deque Record_) (s : Sensor)
  : Sensor :=
  {| interval := interval s; sample_size := sample_size s;
     sensitivity := sensitivity s; retention := retention s;
     warnings := warnings s; _sample_size := _sample_size s;
     _records := f (_records s);
     __start_time := __start_time s;
     __task_running := __task_running s |}.

Definition set__start_time (t : option Z) (s : Sensor) : Sensor :=
  {| interval := interval s; sample_size := sample_size s;
     sensitivity := sensitivity s; retention := retention s;
     warnings := warnings s; _sample_size := _sample_size s;
     _records := _records s;
     __start_time := t;
     __task_running := __task_running s |}.

Definition set__task_running (b : bool) (s : Sensor) : Sensor :=
  {| interval := interval s; sample_size := sample_size s;
     sensitivity := sensitivity s; retention := retention s;
     warnings := warnings s; _sample_size := _sample_size s;
     _records := _records s;
     __start_time := __start_time s;
     __task_running := b |}.

Record World : Type := { sensor : Sensor; trace : list Event }.

(** *** The monad of sensor methods *)

Definition M (A : Type) : Type := World -> outcome A * World.

Definition ret {A} (a : A) : M A := fun w => (Ok a, w).
Definition raise {A} (e : exn) : M A := fun w => (Raise e, w).
Definition bind {A B} (m : M A) (k : A -> M B) : M B :=
  fun w => match m w with
           | (Ok a, w') => k a w'
           | (Raise e, w') => (Raise e, w')
           end.
Definition self : M Sensor := fun w => (Ok (sensor w), w).
Definition emit (e : Event) : M unit :=
  fun w => (Ok tt, {| sensor := sensor w; trace := trace w ++ [e] |}).
Definition update (f : Sensor -> Sensor) : M unit :=
  fun w => (Ok tt, {| sensor := f (sensor w); trace := trace w |}).
Definition lift {A} (r : outcome A) : M A := fun w => (r, w).

Declare Scope sensor_scope.
Delimit Scope sensor_scope with M.
Notation "x <- c ;; k" := (bind c (fun x => k))
  (at level 61, c at next level, right associativity) : sensor_scope.
Notation "' p <- c ;; k" := (bind c (fun x => match x with p => k end))
  (at level 61, p pattern, c at next level, right associativity) : sensor_scope.
Notation "c ;;; k" := (bind c (fun _ => k))
  (at level 61, right associativity) : sensor_scope.

Local Open Scope sensor_scope.

(** [self.log.<name>(msg)]: a missing attribute raises before anything
    is logged. *)
Definition log (name : string) (msg : str) : M unit :=
  match Logger_getattr name with
  | Some level => emit (Logged level msg)
  | None => raise (AttributeError name)
  end.

Definition __init__ (interval sample_size sensitivity retention : Z)
  : outcome Sensor :=
  let warnings :=
    setitem retention Severe
      (setitem (retention / 2) Medium
         (setitem 1 Mild [])) in
  (_records <- deque_new retention ;;
   Ok {| interval := interval;
         sample_size := sample_size;
         sensitivity := sensitivity;
         retention := retention;
         warnings := warnings;
         _sample_size := sample_size;
         _records := _records;
         __start_time := None;
         __task_running := false |})%res.

Definition mild_warning (env : Env) : M unit :=
  log "info" (rest_url env ++ lit " is unreachable").

Definition medium_warning (env : Env) : M unit :=
  log "warning" (rest_url env ++ lit " is unreachable").

Definition severe_warning (env : Env) : M unit :=
  log "critial" (rest_url env ++ lit " is unreachable") ;;;
  raise (Unreachable (ursula_str env ++ lit " is unreachable.")).

Definition call (a : Action) (env : Env) : M unit :=
  match a with
  | Mild => mild_warning env
  | Medium => medium_warning env
  | Severe => severe_warning env
  end.

Definition running : M bool :=
  s <- self ;; ret (__task_running s).

Definition start (env : Env) : M unit :=
  r <- running ;;
  if negb r then
    update (set__start_time (Some (now env))) ;;;
    update (set__task_running true)
  else ret tt.

Definition stop : M unit :=
  r <- running ;;
  if r then update (set__task_running false)
  else ret tt.

Definition failed_records (s : Sensor) : list bool :=
  filter (fun r => r) (map result (items (_records s))).

Definition score : M Q :=
  s <- self ;;
  if retention s =? 0 then raise ZeroDivisionError
  else ret (inject_Z (len (failed_records s)) / inject_Z (retention s))%Q.

Fixpoint issue_warnings_loop (env : Env) (items : dict Action) : M unit :=
  match items with
  | [] => ret tt
  | (threshold, action) :: items' =>
    sc <- score ;;
    (if Qle_bool (inject_Z threshold) sc
     then emit (Invoked InIssueWarnings action) ;;; call action env
     else ret tt) ;;;
    issue_warnings_loop env items'
  end.

Definition issue_warnings (env : Env) : M unit :=
  s <- self ;; issue_warnings_loop env (warnings s).

Definition sample (env : Env) (quantity : Z) : M (list Peer) :=
  emit (Sampled quantity) ;;;
  if (quantity <? 0) || (len (known_nodes env) <? quantity)
  then raise (ValueError "Sample larger than population or is negative")
  else ret (random_sample env (known_nodes env) quantity).

Definition record (env : Env) (result : bool) : M unit :=
  let measurement := {| time := now env; result := result |} in
  update (set__records (append measurement)).

Fixpoint measure_loop (env : Env) (ursulas : list Peer)
  (succeeded failed : Z) : M (Z * Z) :=
  match ursulas with
  | [] => ret (succeeded, failed)
  | ursula :: rest =>
    emit (Probed ursula) ;;;
    status_code <- lift (network_middleware_measure env ursula) ;;
    if status_code =? 200
    then measure_loop env rest (succeeded + 1) failed
    else measure_loop env rest succeeded (failed + 1)
  end.

Definition measure (env : Env) : M bool :=
  s <- self ;;
  if sensitivity s >? sample_size s then
    raise (ValueError "Threshold cannot be greater then the sample size.")
  else
    ursulas <- sample env (sample_size s) ;;
    ' (succeeded, failed) <- measure_loop env ursulas 0 0 ;;
    ret (failed >=? sensitivity s).

Definition maintain (env : Env) : M unit :=
  s <- self ;;
  match known_nodes env with
  | [] =>
    if negb (lonely env) then
      delta <- match __start_time s with
               | Some t0 => ret (now env - t0)
               | None => raise (TypeError "unsupported operand type(s) for -: 'int' and 'NoneType'")
               end ;;
      if delta >=? MAXIMUM_ALONE_TIME
      then emit (Invoked InMaintain Severe) ;;; severe_warning env
      else ret tt
    else ret tt
  | _ :: _ =>
    if len (known_nodes env) <? sample_size s then ret tt
    else
      result <- measure env ;;
      record env result ;;;
      issue_warnings env
  end.

(** [handle_measurement_errors(failure)], given the text that
    [failure.getTraceback()] returns. *)
Definition handle_measurement_errors (traceback : str) : M unit :=
  let cleaned_traceback := remove 125 (remove 123 traceback) in
  log "warn"
      (lit "Unhandled error during availability check: " ++ cleaned_traceback).

End AvailabilitySensor.

(** ** urllib.parse

    [urlparse] on a [str], as in CPython 3.7: [urlsplit] with the default
    arguments [scheme=''] and [allow_fragments=True], and the [hostname]
    and [port] properties of the result.  The cache of [urlsplit] only
    memoises and is left out. *)

Module Urllib.
Import Py.

Record SplitResult : Type := {
  s_scheme : str; s_netloc : str; s_path : str;
  s_query : str; s_fragment : str
}.

Record ParseResult : Type := {
  scheme : str; netloc : str; path : str;
  params : str; query : str; fragment : str
}.

Definition scheme_chars : str :=
  lit "abcdefghijklmnopqrstuvwxyzABCDEFGHIJKLMNOPQRSTUVWXYZ0123456789+-.".

Definition uses_params : list str :=
  map lit [""; "ftp"; "hdl"; "prospero"; "http"; "imap"; "https"; "shttp";
           "rtsp"; "rtspu"; "sip"; "sips"; "mms"; "sftp"; "tel"]%string.

Definition is_empty (s : str) : bool :=
  match s with [] => true | _ => false end.

Definition _splitnetloc (url : str) (start : Z) : str * str :=
  let delim :=
    fold_left (fun delim c =>
                 let wdelim := find_from c start url in
                 if 0 <=? wdelim then Z.min delim wdelim else delim)
              (lit "/?#") (len url) in
  (slice start delim url, from delim url).

Definition _splitparams (url : str) : str * str :=
  if contains 47 url then
    let i := find_from 59 (rfind 47 url) url in
    if i <? 0 then (url, []) else (upto i url, from (i + 1) url)
  else
    let i := find 59 url in (upto i url, from (i + 1) url).

(** The first part of [urlsplit]: the scheme, if the text before the
    first colon is one, and the rest of the URL.  In CPython the branch
    for [url[:i] == 'http'] then repeats the rest of the function with
    that scheme and returns; here both branches continue with the
    common code of [urlsplit]. *)
Definition _split_scheme (url : str) : str * str :=
  let i := find 58 url in
  if 0 <? i then
    if eqb (upto i url) (lit "http") then (lit "http", from (i + 1) url)
    else if forallb (fun c => contains c scheme_chars) (upto i url) then
      let rest := from (i + 1) url in
      if is_empty rest
         || existsb (fun c => negb (contains c (lit "0123456789"))) rest
      then (lower (upto i url), rest)
      else ([], url)
    else ([], url)
  else ([], url).

Section Unicode.

(** [unicodedata.normalize('NFKC', s)], from the Unicode database. *)
Variable normalize_NFKC : str -> str.

Definition _checknetloc (netloc : str) : outcome unit :=
  if is_empty netloc || isascii netloc then Ok tt
  else
    let n := remove 63 (remove 35 (remove 58 (remove 64 netloc))) in
    let netloc2 := normalize_NFKC n in
    if eqb n netloc2 then Ok tt
    else if existsb (fun c => contains c netloc2) (lit "/?#@:")
    then Raise (ValueError "netloc contains invalid characters under NFKC normalization")
    else Ok tt.

Definition urlsplit (url : str) : outcome SplitResult :=
  let '(scheme, url) := _split_scheme url in
  (' (netloc, url) <-
     (if eqb (upto 2 url) (lit "//") then
        let '(netloc, url) := _splitnetloc url 2 in
        if (contains 91 netloc && negb (contains 93 netloc))
           || (contains 93 netloc && negb (contains 91 netloc))
        then Raise (ValueError "Invalid IPv6 URL")
        else Ok (netloc, url)
      else Ok ([], url)) ;;
   ' (url, fragment) <-
     (if contains 35 url then unpack2 (split 35 (Some 1%nat) url)
      else Ok (url, [])) ;;
   ' (url, query) <-
     (if contains 63 url then unpack2 (split 63 (Some 1%nat) url)
      else Ok (url, [])) ;;
   _ <- _checknetloc netloc ;;
   Ok {| s_scheme := scheme; s_netloc := netloc; s_path := url;
         s_query := query; s_fragment := fragment |})%res.

Definition urlparse (url : str) : outcome ParseResult :=
  (splitresult <- urlsplit url ;;
   let url := s_path splitresult in
   let '(url, params) :=
     if existsb (eqb (s_scheme splitresult)) uses_params && contains 59 url
     then _splitparams url
     else (url, []) in
   Ok {| scheme := s_scheme splitresult; netloc := s_netloc splitresult;
         path := url; params := params;
         query := s_query splitresult;
         fragment := s_fragment splitresult |})%res.

End Unicode.

Definition _hostinfo (self : ParseResult) : str * option str :=
  let netloc := netloc self in
  let '(_, _, hostinfo) := rpartition 64 netloc in
  let '(_, have_open_br, bracketed) := partition 91 hostinfo in
  let '(hostname, port) :=
    if have_open_br then
      let '(hostname, _, port) := partition 93 bracketed in
      let '(_, _, port) := partition 58 port in
      (hostname, port)
    else
      let '(hostname, _, port) := partition 58 hostinfo in
      (hostname, port) in
  (hostname, if is_empty port then None else Some port).

(** The [hostname] property: [None] when empty, otherwise lower-cased up
    to a [%] zone separator. *)
Definition hostname (self : ParseResult) : option str :=
  let hostname := fst (_hostinfo self) in
  if is_empty hostname then None
  else
    let '(hostname, percent, zone) := partition 37 hostname in
    Some (lower hostname ++ (if percent : bool then lit "%" else []) ++ zone).

Definition is_space (c : Z) : bool :=
  ((9 <=? c) && (c <=? 13)) || ((28 <=? c) && (c <=? 32)).

Definition is_digit (c : Z) : bool := (48 <=? c) && (c <=? 57).

Fixpoint lstrip (s : str) : str :=
  match s with
  | c :: s' => if is_space c then lstrip s' else s
  | [] => []
  end.

Definition strip (s : str) : str := rev (lstrip (rev (lstrip s))).

(** Decimal digits, with single underscores allowed between digits. *)
Fixpoint int_digits (acc : Z) (after_digit : bool) (s : str) : option Z :=
  match s with
  | [] => if after_digit then Some acc else None
  | c :: s' =>
    if is_digit c then int_digits (acc * 10 + (c - 48)) true s'
    else if (c =? 95) && after_digit then int_digits acc false s'
    else None
  end.

(** [int(s, 10)] on ASCII text: surrounding white space, an optional
    sign, then the digits. *)
Definition int10 (s : str) : outcome Z :=
  let body := strip s in
  let '(sign, body) :=
    match body with
    | 43 :: r => (1, r)
    | 45 :: r => (-1, r)
    | _ => (1, body)
    end in
  match int_digits 0 false body with
  | Some v => Ok (sign * v)
  | None => Raise (ValueError "invalid literal for int() with base 10")
  end.

(** The [port] property. *)
Definition port (self : ParseResult) : outcome (option Z) :=
  match snd (_hostinfo self) with
  | None => Ok None
  | Some port =>
    (port <- int10 port ;;
     if negb ((0 <=? port) && (port <=? 65535))
     then Raise (ValueError "Port out of range 0-65535")
     else Ok (Some port))%res
  end.

End Urllib.

(** ** parse_node_uri *)

Section ParseNodeUri.
Import Py Urllib.

(** [UrsulaConfiguration.DEFAULT_REST_PORT] of [nucypher.config] and
    [eth_utils.is_checksum_address] are defined outside this file. *)
Variable DEFAULT_REST_PORT : Z.
Variable is_checksum_address : str -> bool.
Variable normalize_NFKC : str -> str.

(** [x or default] on an optional integer: [None] and [0] are false. *)
Definition or_default (x : option Z) (default : Z) : Z :=
  match x with
  | Some v => if v =? 0 then default else v
  | None => default
  end.

(** The test [checksum_address is None] of line 38 is on a [str] that
    [split] returned and never holds. *)
Definition parse_node_uri (uri : str)
  : outcome (option str * Z * option str) :=
  (' (checksum_address, uri) <-
     (if contains 64 uri then
        ' (checksum_address, uri) <- unpack2 (split 64 None uri) ;;
        if negb (is_checksum_address checksum_address)
        then Raise (ValueError "not a valid checksum address.")
        else Ok (Some checksum_address, uri)
      else Ok (None, uri)) ;;
   let uri :=
     if negb (startswith (lit "https://") uri)
     then lit "https://" ++ uri else uri in
   parsed_uri <- urlparse normalize_NFKC uri ;;
   parsed_uri <-
     (if is_empty (scheme parsed_uri)
      then urlparse normalize_NFKC (lit "https://" ++ uri)
      else Ok parsed_uri) ;;
   if negb (eqb (scheme parsed_uri) (lit "https"))
   then Raise (ValueError "Invalid teacher scheme or protocol. Is the hostname prefixed with 'https://' ?")
   else
     let hostname := hostname parsed_uri in
     port <- port parsed_uri ;;
     Ok (hostname, or_default port DEFAULT_REST_PORT, checksum_address))%res.

End ParseNodeUri.

(** ** class StandardTokenEconomics: the supply over time

    [nucypher/blockchain/economics.py].  The supply formula of
    [token_supply_at_period] (lines 230 to 243) is computed with
    [decimal.Decimal] at 28 digits from [LOG2 = Decimal(log(2))], a
    float; that arithmetic is not modelled.  It is taken as a function
    of the three values it reads, which may raise (a halving time of 0
    divides by zero).  What is modelled is the code around it. *)

Module StandardTokenEconomics.

Record t : Type := {
  erc20_initial_supply : Z;       (* [int(self.initial_supply)] *)
  token_halving : Z
}.

Section Supply.

(** [int(S_0 + I_0 * T_half * (1 - 2**(-t / T_half_in_days)) / LOG2)]
    for [S_0], [T_half] and the period [t]. *)
Variable supply_formula : Z -> Z -> Z -> outcome Z.

Definition token_supply_at_period (self : t) (period : Z) : outcome Z :=
  if period <? 0
  then Raise (ValueError "Period must be a positive integer")
  else supply_formula (erc20_initial_supply self) (token_halving self) period.

Definition cumulative_rewards_at_period (self : t) (period : Z) : outcome Z :=
  (supply <- token_supply_at_period self period ;;
   Ok (supply - erc20_initial_supply self))%res.

Definition rewards_during_period (self : t) (period : Z) : outcome Z :=
  (now_ <- cumulative_rewards_at_period self period ;;
   before <- cumulative_rewards_at_period self (period - 1) ;;
   Ok (now_ - before))%res.

End Supply.

End StandardTokenEconomics.

Module AddressStatements.

(** A value that a [bytes] object can hold. *)
Definition is_byte (b : Z) : Prop := 0 <= b < 256.

End AddressStatements.

Module UriStatements.
Import Py Urllib.

(** A decimal digit, as a character. *)
Definition digit_char (d : Z) : Prop := 48 <= d <= 57.

(** The number that a string of decimal digits writes. *)
Definition decimal_value (ds : str) : Z :=
  fold_left (fun acc d => acc * 10 + (d - 48)) ds 0.

(** A character that may stand in a bare host name: printable ASCII,
    and none of the delimiters of a URL. *)
Definition host_char (c : Z) : bool :=
  (32 <? c) && (c <? 127) && negb (contains c (lit "@:/?#[]%")).

(** A locator that is a host name and nothing else. *)
Definition bare_host (h : str) : bool :=
  negb (is_empty h) && forallb host_char h.

(** The number of times the character [c] occurs in [s]. *)
Definition count (c : Z) (s : str) : nat :=
  List.length (filter (Z.eqb c) s).

Definition scheme_error : exn :=
  ValueError "Invalid teacher scheme or protocol. Is the hostname prefixed with 'https://' ?".

End UriStatements.

(** ** Vocabulary of the statements *)

Module Statements.
Import Py Collections AvailabilitySensor.
Local Open Scope sensor_scope.

(** A sequence of calls of [record], each with the collaborators of its
    own round. *)
Fixpoint record_each (calls : list (Env * bool)) : M unit :=
  match calls with
  | [] => ret tt
  | (env, result) :: calls' => record env result ;;; record_each calls'
  end.

(** The node has no known peer, is not meant to be alone, and has been
    running for at least [MAXIMUM_ALONE_TIME]. *)
Definition isolated (env : Env) (s : Sensor) : bool :=
  match known_nodes env, lonely env, __start_time s with
  | [], false, Some t0 => MAXIMUM_ALONE_TIME <=? now env - t0
  | _, _, _ => false
  end.

Definition same_site (s1 s2 : CallSite) : bool :=
  match s1, s2 with
  | InMaintain, InMaintain | InIssueWarnings, InIssueWarnings => true
  | _, _ => false
  end.

Definition same_action (a1 a2 : Action) : bool :=
  match a1, a2 with
  | Mild, Mild | Medium, Medium | Severe, Severe => true
  | _, _ => false
  end.

(** The event [e] is a call of the action [a] from [site]. *)
Definition is_call (site : CallSite) (a : Action) (e : Event) : bool :=
  match e with
  | Invoked site' a' => same_site site site' && same_action a a'
  | _ => false
  end.

(** How many times the action [a] is called from [site] in a trace. *)
Definition calls_of (site : CallSite) (a : Action) (evs : list Event) : nat :=
  List.length (filter (is_call site a) evs).

Definition with_trace (w : World) (evs : list Event) : World :=
  {| sensor := sensor w; trace := trace w ++ evs |}.

Definition failed (m : Record_) : Prop := result m = true.

Definition measurement_of (c : Env * bool) : Record_ :=
  {| time := now (fst c); result := snd c |}.

(** The sensors that the class can produce: built by [__init__] with
    retention [r], then driven through its methods. *)
Inductive configured (r : Z) : Sensor -> Prop :=
| configured_init i ss se s :
    __init__ i ss se r = Ok s -> configured r s
| configured_start s env tr o w' :
    configured r s ->
    start env {| sensor := s; trace := tr |} = (o, w') ->
    configured r (sensor w')
| configured_stop s tr o w' :
    configured r s ->
    stop {| sensor := s; trace := tr |} = (o, w') ->
    configured r (sensor w')
| configured_record s env b tr o w' :
    configured r s ->
    record env b {| sensor := s; trace := tr |} = (o, w') ->
    configured r (sensor w')
| configured_maintain s env tr o w' :
    configured r s ->
    maintain env {| sensor := s; trace := tr |} = (o, w') ->
    configured r (sensor w').

(** A node seen at time [now] with the given known peers, none of which
    answers with status 200. *)
Definition example_node (known : list Peer) (lonely : bool) (now : Z) : Env :=
  {| known_nodes := known;
     lonely := lonely;
     rest_url := lit "127.0.0.1:9151";
     ursula_str := lit "Ursula";
     network_middleware_measure := fun _ => Ok 500;
     now := now;
     random_sample := fun population k => firstn (Z.to_nat k) population |}.

(** [n] rounds of [maintain] against the same collaborators. *)
Fixpoint rounds (n : nat) (env : Env) : M unit :=
  match n with
  | O => ret tt
  | S n' => maintain env ;;; rounds n' env
  end.

Definition unreachable_message (env : Env) : str :=
  rest_url env ++ lit " is unreachable".

(** The sensor after the calls of [record_each]. *)
Definition record_all (calls : list (Env * bool)) (s : Sensor) : Sensor :=
  fold_left (fun s c => set__records (append (measurement_of c)) s) calls s.

(** What [__init__] establishes and every method keeps. *)
Definition inv (r : Z) (s : Sensor) : Prop :=
  0 <= r
  /\ retention s = r
  /\ warnings s = setitem r Severe (setitem (r / 2) Medium (setitem 1 Mild []))
  /\ maxlen (_records s) = r
  /\ len (items (_records s)) <= r.

(** [m] moves the sensor along [R] and adds to the trace only events
    that satisfy [P]. *)
Definition respects (R : Sensor -> Sensor -> Prop) (P : Event -> Prop)
  {A} (m : M A) : Prop :=
  forall w, R (sensor w) (sensor (snd (m w)))
            /\ exists evs, trace (snd (m w)) = trace w ++ evs /\ Forall P evs.

End Statements.

Module RoundStatements.
Import Py Collections AvailabilitySensor Statements.

(** The probe of peer [p] answers, with a status other than 200. *)
Definition probe_fails (env : Env) (p : Peer) : bool :=
  match network_middleware_measure env p with
  | Ok status_code => negb (status_code =? 200)
  | Raise _ => false
  end.

(** The probe of peer [p] answers at all. *)
Definition probe_answers (env : Env) (p : Peer) : Prop :=
  exists status_code, network_middleware_measure env p = Ok status_code.

(** The peers that a round draws. *)
Definition drawn (env : Env) (s : Sensor) : list Peer :=
  random_sample env (known_nodes env) (sample_size s).

(** The outcome of a round in which every drawn peer answers. *)
Definition round_result (env : Env) (s : Sensor) : bool :=
  len (filter (probe_fails env) (drawn env s)) >=? sensitivity s.

(** The events of the measurement of a round. *)
Definition round_events (s : Sensor) (probed : list Peer) : list Event :=
  Sampled (sample_size s) :: map Probed probed.

(** A round has enough known peers and a usable configuration. *)
Definition measurable (env : Env) (s : Sensor) : Prop :=
  known_nodes env <> []
  /\ 0 <= sample_size s <= len (known_nodes env)
  /\ sensitivity s <= sample_size s.

(** All records of the window are failures, and it is full. *)
Definition full_of_failures (s : Sensor) : bool :=
  len (filter result (items (_records s))) =? retention s.

End RoundStatements.

(** * Properties of the availability sensor *)

Section SensorFacts.
Import Py Collections AvailabilitySensor Statements.
Local Open Scope sensor_scope.

Lemma world_eta (w : World) : {| sensor := sensor w; trace := trace w |} = w.
Proof. now destruct w. Qed.

(** C5.  [severe_warning] looks up the method [critial] on the logger,
    which does not exist: the call raises [AttributeError]; nothing is
    logged and the [raise self.Unreachable(...)] of the next line is not
    reached. *)
Theorem severe_warning_raises_attribute_error (env : Env) (w : World) :
  severe_warning env w = (Raise (AttributeError "critial"), w).
Proof. reflexivity. Qed.

(** C8.  When [sensitivity > sample_size], [measure] raises [ValueError]
    and leaves the world as it was: no sample is drawn and no peer is
    probed, whatever the known peers are. *)
Theorem measure_sensitivity_guard (env : Env) (w : World) :
  sensitivity (sensor w) > sample_size (sensor w) ->
  measure env w =
  (Raise (ValueError "Threshold cannot be greater then the sample size."), w).
Proof.
  intros Hgt. unfold measure, bind, self.
  apply Z.gtb_gt in Hgt. now rewrite Hgt.
Qed.

(** C9.  A round that is skipped, because there are known peers but
    fewer than [sample_size], or none while the node is meant to be
    alone or has been alone for less than [MAXIMUM_ALONE_TIME], returns
    normally and changes neither the sensor nor the trace. *)
Theorem maintain_skips_without_effect (env : Env) (w : World) :
  (known_nodes env <> [] /\ len (known_nodes env) < sample_size (sensor w))
  \/ (known_nodes env = []
      /\ (lonely env = true
          \/ exists t0, __start_time (sensor w) = Some t0
                        /\ now env - t0 < MAXIMUM_ALONE_TIME)) ->
  maintain env w = (Ok tt, w).
Proof.
  intros [[Hne Hlt] | [Hnil Hwhy]]; unfold maintain, bind, self.
  - destruct (known_nodes env) as [|p ps] eqn:E; [congruence|].
    apply Z.ltb_lt in Hlt. now rewrite Hlt.
  - rewrite Hnil. destruct Hwhy as [Hl | (t0 & Ht0 & Hd)].
    + now rewrite Hl.
    + destruct (lonely env); [reflexivity|]. cbn [negb].
      rewrite Ht0. unfold ret.
      assert (Hf : (now env - t0 >=? MAXIMUM_ALONE_TIME) = false)
        by (rewrite Z.geb_leb; apply Z.leb_gt; exact Hd).
      now rewrite Hf.
Qed.

(** *** How methods change the world *)

Section Respects.
Variable R : Sensor -> Sensor -> Prop.
Variable P : Event -> Prop.
Hypothesis R_refl : forall s, R s s.
Hypothesis R_trans : forall s1 s2 s3, R s1 s2 -> R s2 s3 -> R s1 s3.

Local Abbreviation resp := (respects R P).

Lemma respects_ret {A} (a : A) : resp (ret a).
Proof. intros w; split; [apply R_refl|]. exists []. cbn. now rewrite app_nil_r. Qed.

Lemma respects_raise {A} (e : exn) : resp (@raise A e).
Proof. intros w; split; [apply R_refl|]. exists []. cbn. now rewrite app_nil_r. Qed.

Lemma respects_lift {A} (r : outcome A) : resp (lift r).
Proof. intros w; split; [apply R_refl|]. exists []. cbn. now rewrite app_nil_r. Qed.

Lemma respects_self : resp self.
Proof. intros w; split; [apply R_refl|]. exists []. cbn. now rewrite app_nil_r. Qed.

Lemma respects_emit (e : Event) : P e -> resp (emit e).
Proof. intros He w; split; [apply R_refl|]. exists [e]. cbn. auto. Qed.

Lemma respects_update (f : Sensor -> Sensor) :
  (forall s, R s (f s)) -> resp (update f).
Proof. intros Hf w; split; [apply Hf|]. exists []. cbn. now rewrite app_nil_r. Qed.

Lemma respects_bind {A B} (m : M A) (k : A -> M B) :
  resp m -> (forall a, resp (k a)) -> resp (bind m k).
Proof.
  intros Hm Hk w. unfold bind. specialize (Hm w).
  destruct (m w) as [[a|e] w1]; cbn [snd] in Hm; [|exact Hm].
  destruct Hm as [HR (evs & Ht & HP)].
  destruct (Hk a w1) as [HR' (evs' & Ht' & HP')]. split.
  - eapply R_trans; eassumption.
  - exists (evs ++ evs'). rewrite Ht', Ht, app_assoc. split; [reflexivity|].
    apply Forall_app; auto.
Qed.

Lemma respects_log (name : string) (msg : str) :
  (forall level, P (Logged level msg)) -> resp (log name msg).
Proof.
  intros HP. unfold log. destruct (Logger_getattr name).
  - apply respects_emit, HP.
  - apply respects_raise.
Qed.

Hypothesis P_logged : forall level msg, P (Logged level msg).
Hypothesis P_sampled : forall k, P (Sampled k).
Hypothesis P_probed : forall p, P (Probed p).
Hypothesis P_issued : forall a, P (Invoked InIssueWarnings a).
Hypothesis R_append :
  forall m s, R s (set__records (append m) s).

Ltac respects_step :=
  first [ apply respects_ret | apply respects_raise | apply respects_lift
        | apply respects_self | apply respects_log; intros; apply P_logged
        | apply respects_emit; solve [auto]
        | apply respects_bind; [|intros ?] ].

Lemma respects_call (a : Action) (env : Env) : resp (call a env).
Proof.
  destruct a; cbn [call]; unfold mild_warning, medium_warning, severe_warning;
    repeat respects_step.
Qed.

Lemma respects_score : resp score.
Proof.
  unfold score. respects_step; [respects_step|].
  destruct (retention a =? 0); respects_step.
Qed.

Lemma respects_issue_warnings_loop (env : Env) (d : dict Action) :
  resp (issue_warnings_loop env d).
Proof.
  induction d as [|[threshold action] d IH]; cbn [issue_warnings_loop].
  - respects_step.
  - respects_step; [apply respects_score|].
    respects_step; [|exact IH].
    destruct (Qle_bool (inject_Z threshold) a).
    + respects_step; [respects_step | apply respects_call].
    + respects_step.
Qed.

Lemma respects_issue_warnings (env : Env) : resp (issue_warnings env).
Proof.
  unfold issue_warnings. respects_step; [respects_step|].
  apply respects_issue_warnings_loop.
Qed.

Lemma respects_sample (env : Env) (quantity : Z) : resp (sample env quantity).
Proof.
  unfold sample. respects_step; [respects_step|].
  destruct ((quantity <? 0) || (len (known_nodes env) <? quantity));
    respects_step.
Qed.

Lemma respects_measure_loop (env : Env) (ursulas : list Peer) :
  forall succeeded failed, resp (measure_loop env ursulas succeeded failed).
Proof.
  induction ursulas as [|u rest IH]; intros succeeded failed;
    cbn [measure_loop].
  - respects_step.
  - respects_step; [respects_step|].
    respects_step; [respects_step|].
    destruct (a0 =? 200); apply IH.
Qed.

Lemma respects_measure (env : Env) : resp (measure env).
Proof.
  unfold measure. respects_step; [respects_step|].
  destruct (sensitivity a >? sample_size a); [respects_step|].
  respects_step; [apply respects_sample|].
  respects_step; [apply respects_measure_loop|].
  destruct a1. respects_step.
Qed.

Lemma respects_record (env : Env) (b : bool) : resp (record env b).
Proof. unfold record. apply respects_update. intros s. apply R_append. Qed.

(** What [maintain] does once it has found enough known peers. *)
Lemma respects_round (env : Env) :
  resp (bind (measure env)
          (fun result => bind (record env result)
                           (fun _ => issue_warnings env))).
Proof.
  respects_step; [apply respects_measure|].
  respects_step; [apply respects_record | apply respects_issue_warnings].
Qed.

Hypothesis P_isolation : P (Invoked InMaintain Severe).

Lemma respects_maintain (env : Env) : resp (maintain env).
Proof.
  unfold maintain. respects_step; [respects_step|].
  destruct (known_nodes env) as [|p ps].
  - destruct (negb (lonely env)); [|respects_step].
    respects_step.
    + destruct (__start_time a); respects_step.
    + destruct (a0 >=? MAXIMUM_ALONE_TIME); [|respects_step].
      apply respects_bind; [apply respects_emit, P_isolation|intros _].
      apply (respects_call Severe).
  - destruct (len (p :: ps) <? sample_size a); [respects_step|].
    apply respects_round.
Qed.

End Respects.

(** *** The invariant *)

Lemma inv_append (r : Z) (m : Record_) (s : Sensor) :
  inv r s -> inv r (set__records (append m) s).
Proof.
  intros (Hr & Hret & Hw & Hmax & Hlen). unfold inv. cbn.
  repeat split; try assumption.
  unfold len in *. rewrite Hmax, length_app. cbn [List.length].
  destruct (Z.ltb_spec r (Z.of_nat (List.length (items (_records s)) + 1))).
  - destruct (items (_records s) ++ [m]) eqn:E.
    + cbn. lia.
    + apply (f_equal (@List.length _)) in E. rewrite length_app in E.
      cbn in E. cbn [tl]. lia.
  - rewrite length_app. cbn [List.length]. lia.
Qed.

Lemma configured_inv (r : Z) (s : Sensor) : configured r s -> inv r s.
Proof.
  induction 1 as [i ss se s Hinit | s env tr o w' _ IH Hrun
                 | s tr o w' _ IH Hrun | s env b tr o w' _ IH Hrun
                 | s env tr o w' _ IH Hrun].
  - unfold __init__, deque_new in Hinit.
    destruct (Z.ltb_spec r 0); cbn in Hinit; [discriminate|].
    injection Hinit as <-. unfold inv. cbn. repeat split; auto; lia.
  - unfold start, running, bind, self, update, ret in Hrun. cbn in Hrun.
    destruct (__task_running s); cbn in Hrun; injection Hrun as _ <-;
      exact IH.
  - unfold stop, running, bind, self, update, ret in Hrun. cbn in Hrun.
    destruct (__task_running s); cbn in Hrun; injection Hrun as _ <-;
      exact IH.
  - unfold record, update in Hrun. cbn in Hrun. injection Hrun as _ <-.
    cbn. apply inv_append, IH.
  - pose proof (respects_maintain (fun s s' => inv r s -> inv r s')
                  (fun _ => True)) as Hm.
    destruct (Hm (fun _ H => H) (fun _ _ _ H12 H23 H => H23 (H12 H))
                 (fun _ _ => I) (fun _ => I) (fun _ => I) (fun _ => I)
                 (fun m s => inv_append r m s) I env
                 {| sensor := s; trace := tr |}) as [Hinv _].
    rewrite Hrun in Hinv. apply Hinv, IH.
Qed.

(** *** The score *)

Lemma Qle_bool_ratio (t f r : Z) :
  0 < r -> Qle_bool (inject_Z t) (inject_Z f / inject_Z r) = (t * r <=? f).
Proof.
  intros Hr. destruct r as [|p|p]; try lia.
  unfold Qle_bool, Qdiv, Qmult, Qinv, inject_Z. cbn.
  now rewrite !Z.mul_1_r.
Qed.

Lemma ratio_is_1 (f r : Z) :
  0 < r -> (inject_Z f / inject_Z r == 1)%Q <-> f = r.
Proof.
  intros Hr. destruct r as [|p|p]; try lia.
  unfold Qeq, Qdiv, Qmult, Qinv, inject_Z. cbn. lia.
Qed.

Lemma length_failed_records (s : Sensor) :
  len (failed_records s) = len (filter result (items (_records s))).
Proof.
  unfold failed_records, len. f_equal.
  induction (items (_records s)) as [|m l IH]; [reflexivity|].
  cbn. destruct (result m); cbn; now rewrite IH.
Qed.

Lemma score_eq (w : World) :
  retention (sensor w) <> 0 ->
  score w =
  (Ok (inject_Z (len (filter result (items (_records (sensor w)))))
       / inject_Z (retention (sensor w)))%Q, w).
Proof.
  intros Hr. unfold score, bind, self, ret.
  apply Z.eqb_neq in Hr. rewrite Hr. now rewrite length_failed_records.
Qed.

Lemma filter_length_le {A} (p : A -> bool) (l : list A) :
  (List.length (filter p l) <= List.length l)%nat.
Proof. induction l as [|a l IH]; cbn; [lia|]. destruct (p a); cbn; lia. Qed.

Lemma filter_length_all {A} (p : A -> bool) (l : list A) :
  List.length (filter p l) = List.length l <-> Forall (fun a => p a = true) l.
Proof.
  induction l as [|a l IH]; cbn.
  - split; auto.
  - pose proof (filter_length_le p l). destruct (p a) eqn:E; cbn.
    + split.
      * intros H'. constructor; [assumption|]. apply IH. lia.
      * intros H'. inversion H'; subst. f_equal. now apply IH.
    + split; [lia|]. intros H'. inversion H'; congruence.
Qed.

(** *** Filling the window *)

Lemma record_each_eq (calls : list (Env * bool)) :
  forall w, record_each calls w =
            (Ok tt, {| sensor := record_all calls (sensor w);
                       trace := trace w |}).
Proof.
  induction calls as [|[env b] calls IH]; intros w; cbn.
  - now rewrite world_eta.
  - unfold bind, record, update. cbn. now rewrite IH.
Qed.

Lemma record_all_retention (calls : list (Env * bool)) :
  forall s, retention (record_all calls s) = retention s.
Proof.
  induction calls as [|c calls IH]; intros s; cbn; [reflexivity|].
  now rewrite IH.
Qed.

Lemma record_all_items (calls : list (Env * bool)) :
  forall s,
    len (items (_records s)) + len calls <= maxlen (_records s) ->
    items (_records (record_all calls s))
    = items (_records s) ++ map measurement_of calls.
Proof.
  induction calls as [|c calls IH]; intros s Hroom; cbn.
  - now rewrite app_nil_r.
  - unfold len in *. cbn [List.length] in Hroom.
    rewrite IH; cbn; rewrite length_app; cbn [List.length].
    + destruct (Z.ltb_spec (maxlen (_records s))
                  (Z.of_nat (List.length (items (_records s)) + 1))); [lia|].
      now rewrite <- app_assoc.
    + destruct (Z.ltb_spec (maxlen (_records s))
                  (Z.of_nat (List.length (items (_records s)) + 1))); [lia|].
      rewrite length_app. cbn [List.length]. lia.
Qed.

Lemma filter_result_measurements (calls : list (Env * bool)) :
  List.length (filter result (map measurement_of calls))
  = List.length (filter snd calls).
Proof.
  induction calls as [|[env b] calls IH]; cbn; [reflexivity|].
  destruct b; cbn; now rewrite IH.
Qed.

(** C2.  On a sensor built with a positive [retention], after any
    sequence of [record] calls the score is the number of failed records
    held divided by [retention]; when exactly [retention] records were
    appended, it is the number of failed ones among them divided by
    [retention]. *)
Theorem score_is_failures_over_retention
  (i ss se r : Z) (s0 : Sensor) (calls : list (Env * bool))
  (tr : list Event) :
  __init__ i ss se r = Ok s0 ->
  0 < r ->
  exists w,
    record_each calls {| sensor := s0; trace := tr |} = (Ok tt, w)
    /\ score w
       = (Ok (inject_Z (len (filter result (items (_records (sensor w)))))
              / inject_Z r)%Q, w)
    /\ (len calls = r ->
        score w
        = (Ok (inject_Z (len (filter snd calls)) / inject_Z r)%Q, w)).
Proof.
  intros Hinit Hr. rewrite record_each_eq. cbn [sensor trace].
  eexists. split; [reflexivity|].
  assert (Hs0 : retention s0 = r /\ maxlen (_records s0) = r
                /\ items (_records s0) = []).
  { unfold __init__, deque_new in Hinit.
    destruct (r <? 0); cbn in Hinit; [discriminate|].
    injection Hinit as <-. cbn. auto. }
  destruct Hs0 as (Hret & Hmax & Hitems).
  assert (Hscore : forall w', sensor w' = record_all calls s0 ->
            score w'
            = (Ok (inject_Z (len (filter result (items (_records (sensor w')))))
                   / inject_Z r)%Q, w')).
  { intros w' Hw'. rewrite score_eq; rewrite Hw', record_all_retention, Hret;
      [reflexivity|lia]. }
  split; [now apply Hscore|].
  intros Hfull. rewrite Hscore by reflexivity. cbn [sensor].
  rewrite record_all_items by (rewrite Hitems, Hmax; cbn; lia).
  rewrite Hitems. cbn [app]. unfold len.
  now rewrite filter_result_measurements.
Qed.

(** *** Escalation *)

Lemma issue_warnings_loop_cons (env : Env) (threshold : Z) (action : Action)
  (d : dict Action) (q : Q) (w : World) :
  score w = (Ok q, w) ->
  issue_warnings_loop env ((threshold, action) :: d) w
  = if Qle_bool (inject_Z threshold) q
    then match call action env
                 (with_trace w [Invoked InIssueWarnings action]) with
         | (Ok _, w') => issue_warnings_loop env d w'
         | (Raise e, w') => (Raise e, w')
         end
    else issue_warnings_loop env d w.
Proof.
  intros Hs. cbn [issue_warnings_loop]. unfold bind at 1. rewrite Hs.
  destruct (Qle_bool (inject_Z threshold) q); reflexivity.
Qed.

Lemma score_with_trace (w : World) (evs : list Event) (q : Q) :
  score w = (Ok q, w) -> score (with_trace w evs) = (Ok q, with_trace w evs).
Proof.
  unfold score, bind, self, ret. cbn.
  destruct (retention (sensor w) =? 0); intros H; [discriminate|].
  now injection H as ->.
Qed.

(** C1 (amended).  On a sensor configured with [retention >= 4] the
    score is 1 exactly when the window is full and every record in it is
    a failure.  In that case [issue_warnings] calls the mild action,
    which logs at level [info], and nothing else; otherwise it calls no
    action at all.  The medium and the severe action are never called. *)
Theorem issue_warnings_fires_mild_only
  (r : Z) (env : Env) (w : World) :
  configured r (sensor w) ->
  4 <= r ->
  exists q,
    score w = (Ok q, w)
    /\ ((q == 1)%Q <->
        len (items (_records (sensor w))) = r
        /\ Forall failed (items (_records (sensor w))))
    /\ ((q == 1)%Q ->
        issue_warnings env w
        = (Ok tt, with_trace w [Invoked InIssueWarnings Mild;
                                Logged info (unreachable_message env)]))
    /\ (~ (q == 1)%Q -> issue_warnings env w = (Ok tt, w)).
Proof.
  intros Hc Hr. apply configured_inv in Hc.
  destruct Hc as (_ & Hret & Hw & Hmax & Hlen).
  set (f := len (filter result (items (_records (sensor w))))).
  assert (Hf : f <= len (items (_records (sensor w)))).
  { unfold f, len. pose proof (filter_length_le result (items (_records (sensor w)))).
    lia. }
  assert (Hscore : score w = (Ok (inject_Z f / inject_Z r)%Q, w)).
  { rewrite score_eq by lia. now rewrite Hret. }
  exists (inject_Z f / inject_Z r)%Q.
  assert (Hone : (inject_Z f / inject_Z r == 1)%Q <->
                 len (items (_records (sensor w))) = r
                 /\ Forall failed (items (_records (sensor w)))).
  { rewrite ratio_is_1 by lia. unfold failed.
    rewrite <- filter_length_all. unfold f, len in *. split.
    - intros Hfr. split; lia.
    - intros [H1 H2]. lia. }
  assert (Hpolicy : warnings (sensor w)
                    = [(1, Mild); (r / 2, Medium); (r, Severe)]).
  { rewrite Hw. cbn [setitem].
    destruct (Z.eqb_spec 1 (r / 2)) as [E|_];
      [exfalso; Z.div_mod_to_equations; lia|].
    cbn [setitem]. destruct (Z.eqb_spec 1 r) as [E|_]; [lia|].
    destruct (Z.eqb_spec (r / 2) r) as [E|_];
      [exfalso; Z.div_mod_to_equations; lia|].
    reflexivity. }
  assert (Hmedium : (r / 2 * r <=? f) = false).
  { apply Z.leb_gt.
    assert (2 <= r / 2) by (Z.div_mod_to_equations; lia).
    nia. }
  assert (Hsevere : (r * r <=? f) = false).
  { apply Z.leb_gt. nia. }
  split; [exact Hscore|]. split; [exact Hone|].
  split.
  - intros Hq. rewrite ratio_is_1 in Hq by lia.
    unfold issue_warnings, bind at 1, self. rewrite Hpolicy.
    rewrite (issue_warnings_loop_cons _ _ _ _ _ _ Hscore), Qle_bool_ratio by lia.
    replace (1 * r <=? f) with true by (symmetry; apply Z.leb_le; lia).
    cbn [call]. unfold mild_warning, log. cbn [Logger_getattr String.eqb].
    cbn -[issue_warnings_loop lit]. rewrite <- app_assoc. cbn [app].
    fold (unreachable_message env).
    set (evs := [Invoked InIssueWarnings Mild;
                 Logged info (unreachable_message env)]).
    change (issue_warnings_loop env [(r / 2, Medium); (r, Severe)]
              (with_trace w evs) = (Ok tt, with_trace w evs)).
    pose proof (score_with_trace w evs _ Hscore) as Hs'.
    rewrite (issue_warnings_loop_cons _ _ _ _ _ _ Hs'), Qle_bool_ratio, Hmedium by lia.
    rewrite (issue_warnings_loop_cons _ _ _ _ _ _ Hs'), Qle_bool_ratio, Hsevere by lia.
    reflexivity.
  - intros Hq. rewrite ratio_is_1 in Hq by lia.
    unfold issue_warnings, bind at 1, self. rewrite Hpolicy.
    rewrite (issue_warnings_loop_cons _ _ _ _ _ _ Hscore), Qle_bool_ratio by lia.
    replace (1 * r <=? f) with false by (symmetry; apply Z.leb_gt; lia).
    rewrite (issue_warnings_loop_cons _ _ _ _ _ _ Hscore), Qle_bool_ratio, Hmedium by lia.
    rewrite (issue_warnings_loop_cons _ _ _ _ _ _ Hscore), Qle_bool_ratio, Hsevere by lia.
    reflexivity.
Qed.

Lemma calls_of_none (site : CallSite) (a : Action) (evs : list Event) :
  Forall (fun e => is_call site a e = false) evs -> calls_of site a evs = 0%nat.
Proof.
  unfold calls_of. induction 1 as [|e evs He _ IH]; [reflexivity|].
  cbn. now rewrite He.
Qed.

Lemma maintain_alone (env : Env) (w : World) :
  known_nodes env = [] ->
  maintain env w
  = if lonely env then (Ok tt, w)
    else match __start_time (sensor w) with
         | Some t0 =>
           if MAXIMUM_ALONE_TIME <=? now env - t0
           then severe_warning env (with_trace w [Invoked InMaintain Severe])
           else (Ok tt, w)
         | None =>
           (Raise (TypeError "unsupported operand type(s) for -: 'int' and 'NoneType'"), w)
         end.
Proof.
  intros Hknown. unfold maintain, bind at 1, self. rewrite Hknown.
  destruct (lonely env); cbn [negb]; [reflexivity|].
  destruct (__start_time (sensor w)) as [t0|]; [|reflexivity].
  unfold bind at 1, ret at 1. rewrite Z.geb_leb.
  destruct (MAXIMUM_ALONE_TIME <=? now env - t0); reflexivity.
Qed.

Lemma maintain_populated (env : Env) (w : World) (p : Peer) (ps : list Peer) :
  known_nodes env = p :: ps ->
  maintain env w
  = (if len (p :: ps) <? sample_size (sensor w) then ret tt
     else bind (measure env)
            (fun result => bind (record env result)
                             (fun _ => issue_warnings env))) w.
Proof.
  intros Hknown. unfold maintain, bind at 1, self. now rewrite Hknown.
Qed.

(** C3 (amended).  When the node is isolated (no known peer, not meant
    to be alone, running for at least [MAXIMUM_ALONE_TIME]) a round of
    [maintain] is one call of the severe action and nothing more; that
    call raises, and the round ends with its exception instead of
    returning.  In every round, isolated or not, with or without known
    peers, the number of calls of the severe action from this branch is
    one if the node is isolated and zero otherwise. *)
Theorem maintain_isolation_escalation (env : Env) (w : World) :
  (isolated env (sensor w) = true ->
   maintain env w
   = severe_warning env (with_trace w [Invoked InMaintain Severe])
   /\ exists e,
       maintain env w = (Raise e, with_trace w [Invoked InMaintain Severe]))
  /\ exists evs,
      trace (snd (maintain env w)) = trace w ++ evs
      /\ calls_of InMaintain Severe evs
         = if isolated env (sensor w) then 1%nat else 0%nat.
Proof.
  unfold isolated. destruct (known_nodes env) as [|p ps] eqn:Hknown.
  - rewrite (maintain_alone env w Hknown).
    destruct (lonely env).
    + split; [discriminate|]. exists []. cbn. now rewrite app_nil_r.
    + destruct (__start_time (sensor w)) as [t0|].
      * destruct (MAXIMUM_ALONE_TIME <=? now env - t0).
        -- split; [intros _; split; [reflexivity|eexists; reflexivity]|].
           exists [Invoked InMaintain Severe]. split; reflexivity.
        -- split; [discriminate|]. exists []. cbn. now rewrite app_nil_r.
      * split; [discriminate|]. exists []. cbn. now rewrite app_nil_r.
  - split; [discriminate|].
    rewrite (maintain_populated env w p ps Hknown).
    set (P := fun e => is_call InMaintain Severe e = false).
    assert (Hrest : respects (fun _ _ => True) P
              (if len (p :: ps) <? sample_size (sensor w) then ret tt
               else bind (measure env)
                      (fun result => bind (record env result)
                                       (fun _ => issue_warnings env)))).
    { destruct (len (p :: ps) <? sample_size (sensor w)).
      - apply respects_ret. auto.
      - apply respects_round; unfold P; auto. }
    destruct (Hrest w) as [_ (evs & Htrace & Hevs)].
    exists evs. split; [exact Htrace|]. now apply calls_of_none.
Qed.

(** *** Instances *)

Lemma configured_record_each (r : Z) (calls : list (Env * bool)) :
  forall w, configured r (sensor w) ->
            configured r (sensor (snd (record_each calls w))).
Proof.
  induction calls as [|[env b] calls IH]; intros w Hc; cbn.
  - exact Hc.
  - destruct w as [s tr]. unfold bind. cbn -[record_each]. apply IH.
    exact (configured_record r s env b tr _ _ Hc eq_refl).
Qed.

Lemma measure_sensitivity_guard_witness :
  exists s, __init__ 120 2 3 10 = Ok s
    /\ sensitivity s > sample_size s
    /\ measure (example_node [1; 2; 3] false 1000) {| sensor := s; trace := [] |}
       = (Raise (ValueError "Threshold cannot be greater then the sample size."),
          {| sensor := s; trace := [] |}).
Proof.
  eexists. split; [reflexivity|]. split; [reflexivity|].
  apply measure_sensitivity_guard. reflexivity.
Defined.

Lemma maintain_skips_without_effect_witness :
  exists s, __init__ 120 3 2 10 = Ok s
    /\ maintain (example_node [1; 2] false 1000) {| sensor := s; trace := [] |}
       = (Ok tt, {| sensor := s; trace := [] |}).
Proof.
  eexists. split; [reflexivity|].
  apply maintain_skips_without_effect. left. split.
  - discriminate.
  - reflexivity.
Defined.

Lemma score_is_failures_over_retention_witness :
  exists s0, __init__ 120 3 2 4 = Ok s0
    /\ let env := example_node [1; 2; 3] false 1000 in
       let calls := [(env, true); (env, false); (env, true); (env, true)] in
       exists w,
         record_each calls {| sensor := s0; trace := [] |} = (Ok tt, w)
         /\ score w
            = (Ok (inject_Z (len (filter result (items (_records (sensor w)))))
                   / inject_Z 4)%Q, w)
         /\ (len calls = 4 ->
             score w = (Ok (inject_Z (len (filter snd calls)) / inject_Z 4)%Q, w)).
Proof.
  eexists. split; [reflexivity|]. cbv zeta.
  eapply score_is_failures_over_retention; [reflexivity|lia].
Defined.

Lemma issue_warnings_fires_mild_only_witness :
  exists s0, __init__ 120 3 2 10 = Ok s0
    /\ let env := example_node [1; 2; 3] false 1000 in
       let w := snd (record_each (repeat (env, true) 10)
                       {| sensor := s0; trace := [] |}) in
       exists q,
         score w = (Ok q, w)
         /\ ((q == 1)%Q <->
             len (items (_records (sensor w))) = 10
             /\ Forall failed (items (_records (sensor w))))
         /\ ((q == 1)%Q ->
             issue_warnings env w
             = (Ok tt, with_trace w [Invoked InIssueWarnings Mild;
                                     Logged info (unreachable_message env)]))
         /\ (~ (q == 1)%Q -> issue_warnings env w = (Ok tt, w)).
Proof.
  eexists. split; [reflexivity|]. cbv zeta.
  apply issue_warnings_fires_mild_only; [|lia].
  apply configured_record_each. cbn [sensor].
  eapply configured_init. reflexivity.
Defined.

Lemma maintain_isolation_escalation_witness :
  exists s0, __init__ 120 3 2 10 = Ok s0
    /\ let w := snd (start (example_node [] false 0)
                       {| sensor := s0; trace := [] |}) in
       let env := example_node [] false 120 in
       isolated env (sensor w) = true
       /\ (maintain env w
           = severe_warning env (with_trace w [Invoked InMaintain Severe])
           /\ exists e,
               maintain env w
               = (Raise e, with_trace w [Invoked InMaintain Severe])).
Proof.
  eexists. split; [reflexivity|]. cbv zeta. split; [reflexivity|].
  apply (proj1 (maintain_isolation_escalation _ _)). reflexivity.
Defined.

(** An isolated round does not return: started at time 0 and run at time
    120 with no known peer, [maintain] calls the severe action once and
    ends with the exception that the call raises. *)
Lemma isolated_round_raises :
  exists s0, __init__ 120 3 2 10 = Ok s0
    /\ let w := snd (start (example_node [] false 0)
                       {| sensor := s0; trace := [] |}) in
       let env := example_node [] false 120 in
       isolated env (sensor w) = true
       /\ maintain env w
          = (Raise (AttributeError "critial"),
             with_trace w [Invoked InMaintain Severe])
       /\ fst (maintain env w) <> Ok tt.
Proof.
  eexists. split; [reflexivity|]. cbv zeta. split; [reflexivity|].
  split; [reflexivity|]. discriminate.
Qed.

(** The end-to-end scenario: [retention=10], [sample_size=3],
    [sensitivity=2], ten rounds in which all three probes fail.  The
    first nine rounds sample and probe and call nothing; the tenth calls
    the mild action and no other; the score is then [10/10]. *)
Example end_to_end_scenario :
  exists s0 w9 w10,
    __init__ 120 3 2 10 = Ok s0
    /\ let env := example_node [1; 2; 3] false 1000 in
       let round_events := [Sampled 3; Probed 1; Probed 2; Probed 3] in
       rounds 9 env {| sensor := s0; trace := [] |} = (Ok tt, w9)
       /\ calls_of InIssueWarnings Mild (trace w9) = 0%nat
       /\ maintain env w9 = (Ok tt, w10)
       /\ trace w10
          = trace w9 ++ round_events
            ++ [Invoked InIssueWarnings Mild;
                Logged info (unreachable_message env)]
       /\ score w10 = (Ok (inject_Z 10 / inject_Z 10)%Q, w10).
Proof.
  do 3 eexists. split; [reflexivity|]. cbv zeta.
  split; [vm_compute; reflexivity|].
  split; [vm_compute; reflexivity|].
  split; [vm_compute; reflexivity|].
  split; vm_compute; reflexivity.
Qed.

(** With [retention = 2] the dict display of [__init__] has the key [1]
    twice, for the mild and then for the medium action, and the medium
    action takes the entry: after two failed rounds [issue_warnings]
    calls the medium action, and never the mild one. *)
Lemma medium_fires_with_retention_2 :
  exists s0, __init__ 120 3 2 2 = Ok s0
    /\ 2 > 1
    /\ warnings s0 = [(1, Medium); (2, Severe)]
    /\ let env := example_node [1; 2; 3] false 1000 in
       let w := snd (record_each [(env, true); (env, true)]
                       {| sensor := s0; trace := [] |}) in
       let evs := trace (snd (issue_warnings env w)) in
       evs = [Invoked InIssueWarnings Medium]
       /\ calls_of InIssueWarnings Medium evs = 1%nat
       /\ calls_of InIssueWarnings Mild evs = 0%nat.
Proof.
  eexists. split; [reflexivity|]. split; [lia|]. split; [reflexivity|].
  cbv zeta. split; [reflexivity|]. split; reflexivity.
Qed.

End SensorFacts.

(** * Properties of the peer address encoding *)

Section AddressFacts.
Import Py InterfaceInfo.

Lemma eqb_eq (s t : list Z) : eqb s t = true <-> s = t.
Proof.
  revert t. induction s as [|c s IH]; intros [|d t]; cbn;
    try (split; [discriminate|discriminate]); [split; reflexivity|].
  rewrite andb_true_iff, Z.eqb_eq, IH. split.
  - intros [-> ->]. reflexivity.
  - intros H. injection H as -> ->. auto.
Qed.

Ltac decide_tests :=
  repeat match goal with
         | |- context [?a <=? ?b] =>
             destruct (Z.leb_spec a b);
             try (exfalso; Z.div_mod_to_equations; lia)
         | |- context [?a <? ?b] =>
             destruct (Z.ltb_spec a b);
             try (exfalso; Z.div_mod_to_equations; lia)
         end; cbn [andb orb negb].

(** One code point: the decoder reads back what the encoder wrote, and
    the encoder writes the byte [0x3A] only for the colon itself. *)
Lemma utf8_char_round_trip (c : Z) :
  scalar_value c ->
  exists b,
    utf8_encode_char c = Ok b
    /\ (forall rest,
          utf8_decode (b ++ rest)
          = (s <- utf8_decode rest ;; Ok (c :: s))%res)
    /\ (c <> 58 -> ~ In 58 b).
Proof.
  intros [Hrange Hsur]. unfold utf8_encode_char.
  destruct (Z.ltb_spec c 128); [|destruct (Z.ltb_spec c 2048);
    [|destruct (Z.ltb_spec c 65536)]].
  - eexists. split; [reflexivity|]. split.
    + intros rest. cbn [app utf8_decode]. now decide_tests.
    + intros Hc [E|[]]. congruence.
  - eexists. split; [reflexivity|]. split.
    + intros rest. cbn [app utf8_decode]. unfold is_cont.
      replace ((192 + c / 64 - 192) * 64 + (128 + c mod 64 - 128)) with c
        by (Z.div_mod_to_equations; lia).
      now decide_tests.
    + intros _ [E|[E|[]]]; Z.div_mod_to_equations; lia.
  - rewrite Hsur. eexists. split; [reflexivity|]. split.
    + intros rest. cbn [app utf8_decode]. unfold is_cont. cbv zeta.
      replace ((224 + c / 4096 - 224) * 4096
               + (128 + (c / 64) mod 64 - 128) * 64
               + (128 + c mod 64 - 128)) with c
        by (Z.div_mod_to_equations; lia).
      rewrite Hsur. now decide_tests.
    + intros _ [E|[E|[E|[]]]]; Z.div_mod_to_equations; lia.
  - eexists. split; [reflexivity|]. split.
    + intros rest. cbn [app utf8_decode]. unfold is_cont. cbv zeta.
      replace ((240 + c / 262144 - 240) * 262144
               + (128 + (c / 4096) mod 64 - 128) * 4096
               + (128 + (c / 64) mod 64 - 128) * 64
               + (128 + c mod 64 - 128)) with c
        by (Z.div_mod_to_equations; lia).
      now decide_tests.
    + intros _ [E|[E|[E|[E|[]]]]]; Z.div_mod_to_equations; lia.
Qed.

Lemma utf8_round_trip (s : str) :
  Forall scalar_value s ->
  exists b,
    utf8_encode s = Ok b
    /\ utf8_decode b = Ok s
    /\ (~ In 58 s -> ~ In 58 b).
Proof.
  induction 1 as [|c s Hc _ (bs & Henc & Hdec & Hcolon)].
  - exists []. repeat split; auto.
  - destruct (utf8_char_round_trip c Hc) as (b & Hb & Hback & Hb58).
    exists (b ++ bs). cbn [utf8_encode]. rewrite Hb, Henc. cbn [rbind].
    split; [reflexivity|]. split.
    + now rewrite Hback, Hdec.
    + intros Hnot Hin. apply in_app_or in Hin. destruct Hin as [Hin|Hin].
      * apply Hb58 in Hin; [assumption|]. intros ->. apply Hnot. now left.
      * apply Hcolon in Hin; [assumption|]. intros Hs. apply Hnot. now right.
Qed.

Lemma split_exhausted (sep : Z) (s : list Z) : split sep (Some 0%nat) s = [s].
Proof. now destruct s. Qed.

(** [split] with [maxsplit = 1] cuts at the first separator. *)
Lemma split_first (sep : Z) (h p : list Z) :
  ~ In sep h -> split sep (Some 1%nat) (h ++ sep :: p) = [h; p].
Proof.
  induction h as [|c h IH]; intros Hnot; cbn [app split option_map Nat.pred].
  - now rewrite Z.eqb_refl, split_exhausted.
  - destruct (Z.eqb_spec c sep) as [->|_].
    + exfalso. apply Hnot. now left.
    + rewrite IH; [reflexivity|]. intros Hin. apply Hnot. now right.
Qed.

Lemma from_bytes_big_app (b : bytes) (d : Z) :
  from_bytes_big (b ++ [d]) = from_bytes_big b * 256 + d.
Proof. unfold from_bytes_big. now rewrite fold_left_app. Qed.

Lemma from_bytes_digits (n : nat) :
  forall v, 0 <= v < 256 ^ Z.of_nat n -> from_bytes_big (digits_big n v) = v.
Proof.
  induction n as [|n IH]; intros v Hv.
  - cbn in *. unfold from_bytes_big. cbn. lia.
  - cbn [digits_big]. rewrite from_bytes_big_app, IH.
    + Z.div_mod_to_equations. lia.
    + rewrite Nat2Z.inj_succ, Z.pow_succ_r in Hv by lia.
      Z.div_mod_to_equations. nia.
Qed.

Lemma to_bytes_big_ok (n : nat) (v : Z) :
  0 <= v < 256 ^ Z.of_nat n -> to_bytes_big n v = Ok (digits_big n v).
Proof.
  intros Hv. unfold to_bytes_big.
  destruct (Z.ltb_spec v 0); [lia|].
  destruct (Z.leb_spec (256 ^ Z.of_nat n) v); [lia|reflexivity].
Qed.

Lemma init_host (host : str) (port : Z) :
  InterfaceInfo.host (__init__ host port)
  = if eqb host (lit "localhost") then lit "127.0.0.1" else host.
Proof. reflexivity. Qed.

(** A constructed address is already normalised. *)
Lemma init_idempotent (host : str) (port : Z) :
  let a := __init__ host port in
  __init__ (InterfaceInfo.host a) (InterfaceInfo.port a) = a.
Proof.
  cbv zeta. unfold __init__. cbn [InterfaceInfo.host InterfaceInfo.port].
  destruct (eqb host (lit "localhost")) eqn:E.
  - reflexivity.
  - now rewrite E.
Qed.

(** C4.  For a host made of encodable code points, none of them a colon,
    and a port in [0, 2^32 - 1], the address built by the constructor
    (where [localhost] has become [127.0.0.1]) has a binary encoding,
    and [from_bytes] on that encoding gives the same address back. *)
Theorem from_bytes_inverts_bytes (host : str) (port : Z) :
  Forall scalar_value host ->
  ~ In 58 host ->
  0 <= port <= 2 ^ 32 - 1 ->
  let address := __init__ host port in
  InterfaceInfo.host address
  = (if eqb host (lit "localhost") then lit "127.0.0.1" else host)
  /\ InterfaceInfo.port address = port
  /\ exists b,
      __bytes__ address = Ok b
      /\ from_bytes b = Ok address.
Proof.
  intros Hscalar Hcolon Hport. cbv zeta.
  split; [reflexivity|]. split; [reflexivity|].
  assert (Hhost : Forall scalar_value (InterfaceInfo.host (__init__ host port))
                  /\ ~ In 58 (InterfaceInfo.host (__init__ host port))).
  { rewrite init_host. destruct (eqb host (lit "localhost")); [|auto].
    split.
    - repeat constructor; cbn; lia.
    - cbn. intros H. repeat (destruct H as [H|H]; [discriminate|]). exact H. }
  destruct Hhost as [Hs Hc].
  destruct (utf8_round_trip _ Hs) as (hb & Henc & Hdec & Hhb).
  exists (hb ++ lit ":" ++ digits_big 4 port).
  unfold __bytes__. rewrite Henc. cbn [rbind InterfaceInfo.port __init__].
  rewrite to_bytes_big_ok by (cbn; lia). cbn [rbind].
  split; [reflexivity|].
  unfold from_bytes. change (lit ":" ++ digits_big 4 port)
    with (58 :: digits_big 4 port).
  rewrite split_first by auto. cbn [unpack2 rbind].
  rewrite Hdec. cbn [rbind].
  rewrite from_bytes_digits by (cbn; lia).
  f_equal. apply init_idempotent.
Qed.

Lemma from_bytes_inverts_bytes_witness :
  let host := lit "localhost" in
  let address := __init__ host 9151 in
  InterfaceInfo.host address = lit "127.0.0.1"
  /\ InterfaceInfo.port address = 9151
  /\ exists b, __bytes__ address = Ok b /\ from_bytes b = Ok address.
Proof.
  apply (from_bytes_inverts_bytes (lit "localhost") 9151).
  - repeat constructor; cbn; lia.
  - cbn. intros H. repeat (destruct H as [H|H]; [discriminate|]). exact H.
  - cbn. lia.
Defined.

(** The encoding of [("peer.example", 9151)], byte by byte. *)
Example bytes_of_peer_example :
  __bytes__ (__init__ (lit "peer.example") 9151)
  = Ok (lit "peer.example" ++ [58; 0; 0; 35; 191]).
Proof. reflexivity. Qed.

End AddressFacts.

(** * Properties of [parse_node_uri] *)

Section UriFacts.
Import Py Urllib UriStatements.

Variable DEFAULT_REST_PORT : Z.
Variable is_checksum_address : str -> bool.
Variable normalize_NFKC : str -> str.

Local Abbreviation parse :=
  (parse_node_uri DEFAULT_REST_PORT is_checksum_address normalize_NFKC).

(** *** Splitting at [@] *)

Lemma split_length (sep : Z) (s : str) :
  List.length (split sep None s) = S (count sep s).
Proof.
  unfold count. induction s as [|c s IH]; [reflexivity|].
  cbn [split option_map filter]. rewrite (Z.eqb_sym sep c).
  destruct (c =? sep).
  - cbn [List.length]. now rewrite IH.
  - destruct (split sep None s) as [|p ps]; [discriminate|].
    cbn [List.length] in *. exact IH.
Qed.

Lemma count_contains (c : Z) (s : str) :
  (0 < count c s)%nat -> contains c s = true.
Proof.
  unfold count, contains. induction s as [|d s IH]; cbn; [lia|].
  destruct (c =? d); cbn; auto.
Qed.

(** C10.  A locator with two or more [@] characters makes the tuple
    assignment of line 37 fail: [parse_node_uri] raises [ValueError]
    and returns nothing. *)
Theorem parse_node_uri_rejects_two_ats (uri : str) :
  (2 <= count 64 uri)%nat ->
  parse uri = Raise (ValueError "too many values to unpack (expected 2)").
Proof.
  intros Hcount. unfold parse_node_uri.
  rewrite count_contains by lia.
  pose proof (split_length 64 uri) as Hlen.
  destruct (split 64 None uri) as [|a [|b [|c parts]]]; cbn in Hlen; try lia.
  reflexivity.
Qed.

(** *** Characters that do not occur *)

Lemma find_absent (c : Z) (s : str) : contains c s = false -> find c s = -1.
Proof.
  unfold contains. induction s as [|d s IH]; [reflexivity|].
  cbn [existsb find]. rewrite (Z.eqb_sym d c).
  destruct (c =? d); [discriminate|]. cbn [orb]. intros H.
  now rewrite IH.
Qed.

Lemma rfind_absent (c : Z) (s : str) : contains c s = false -> rfind c s = -1.
Proof.
  unfold contains. induction s as [|d s IH]; [reflexivity|].
  cbn [existsb rfind]. rewrite (Z.eqb_sym d c).
  destruct (c =? d); [discriminate|]. cbn [orb]. intros H.
  now rewrite IH.
Qed.

Lemma partition_absent (c : Z) (s : str) :
  contains c s = false -> partition c s = (s, false, []).
Proof.
  unfold contains. induction s as [|d s IH]; [reflexivity|].
  cbn [existsb partition]. rewrite (Z.eqb_sym d c).
  destruct (c =? d); [discriminate|]. cbn [orb]. intros H.
  now rewrite IH.
Qed.

Lemma rpartition_absent (c : Z) (s : str) :
  contains c s = false -> rpartition c s = ([], false, s).
Proof. intros H. unfold rpartition. now rewrite rfind_absent. Qed.

Lemma host_char_absent (h : str) (c : Z) :
  forallb host_char h = true ->
  contains c (lit "@:/?#[]%") = true ->
  contains c h = false.
Proof.
  intros Hh Hc. induction h as [|d h IH]; [reflexivity|].
  cbn [forallb] in Hh. apply andb_true_iff in Hh as [Hd Hh].
  unfold contains. cbn [existsb]. fold (contains c h). rewrite (IH Hh).
  destruct (Z.eqb_spec c d) as [->|_]; [|reflexivity].
  unfold host_char in Hd. rewrite Hc in Hd.
  now rewrite andb_false_r in Hd.
Qed.

Lemma host_char_isascii (h : str) : forallb host_char h = true -> isascii h = true.
Proof.
  unfold isascii. induction h as [|d h IH]; [reflexivity|].
  cbn [forallb]. intros H. apply andb_true_iff in H as [Hd Hh].
  rewrite (IH Hh), andb_true_r. unfold host_char in Hd.
  apply andb_true_iff in Hd as [Hd _]. apply andb_true_iff in Hd as [Hlo Hhi].
  apply Z.ltb_lt in Hlo, Hhi. apply andb_true_iff.
  split; [apply Z.leb_le|apply Z.ltb_lt]; lia.
Qed.

Lemma startswith_app (p s : str) :
  startswith p s = true -> exists rest, s = p ++ rest.
Proof.
  revert s. induction p as [|c p IH]; intros s H.
  - now exists s.
  - destruct s as [|d s]; [discriminate|]. cbn [startswith] in H.
    apply andb_true_iff in H as [Hc Hp]. apply Z.eqb_eq in Hc as ->.
    destruct (IH s Hp) as [rest ->]. now exists rest.
Qed.

(** *** URLs that start with [https://] *)

Lemma split_scheme_https (rest : str) :
  _split_scheme (lit "https://" ++ rest) = (lit "https", lit "//" ++ rest).
Proof. vm_compute. reflexivity. Qed.

(** Whatever [urlsplit] returns, the scheme comes from [_split_scheme]. *)
Lemma urlsplit_scheme (url : str) (r : SplitResult) :
  urlsplit normalize_NFKC url = Ok r ->
  s_scheme r = fst (_split_scheme url).
Proof.
  unfold urlsplit. destruct (_split_scheme url) as [scheme rest].
  cbn [fst]. intros H.
  repeat match type of H with
         | rbind ?c _ = Ok _ =>
             let x := fresh "x" in
             destruct c as [x|]; [cbn [rbind] in H|discriminate];
             try destruct x
         end.
  now injection H as <-.
Qed.

Lemma urlparse_https_scheme (rest : str) (r : ParseResult) :
  urlparse normalize_NFKC (lit "https://" ++ rest) = Ok r ->
  scheme r = lit "https".
Proof.
  unfold urlparse. intros H.
  destruct (urlsplit normalize_NFKC (lit "https://" ++ rest)) as [sr|] eqn:E;
    [cbn [rbind] in H|discriminate].
  apply urlsplit_scheme in E. rewrite split_scheme_https in E. cbn [fst] in E.
  destruct (existsb (eqb (s_scheme sr)) uses_params && contains 59 (s_path sr)).
  - destruct (_splitparams (s_path sr)). injection H as <-. exact E.
  - cbv beta iota zeta in H. injection H as <-. exact E.
Qed.


(** *** Errors other than the scheme error *)

Ltac other_error H :=
  repeat match type of H with
         | (if ?c then _ else _) = Raise _ => destruct c
         | (let '(_, _) := ?c in _) = Raise _ => destruct c
         | match ?c with _ => _ end = Raise _ => destruct c
         end;
  first [ discriminate H | injection H as <-; discriminate ].

Lemma unpack2_errors {A} (parts : list A) (e : exn) :
  unpack2 parts = Raise e -> e <> scheme_error.
Proof.
  destruct parts as [|a [|b [|c parts]]]; cbn; intros H; other_error H.
Qed.

Lemma checknetloc_errors (netloc : str) (e : exn) :
  _checknetloc normalize_NFKC netloc = Raise e -> e <> scheme_error.
Proof. unfold _checknetloc. intros H. other_error H. Qed.

Lemma urlsplit_errors (url : str) (e : exn) :
  urlsplit normalize_NFKC url = Raise e -> e <> scheme_error.
Proof.
  unfold urlsplit. destruct (_split_scheme url) as [scheme rest].
  intros H.
  destruct (if eqb (upto 2 rest) (lit "//") then _ else _)
    as [[netloc url1]|e1] eqn:E1; cbn [rbind] in H.
  2:{ injection H as <-. other_error E1. }
  destruct (if contains 35 url1 then _ else _)
    as [[url2 fragment]|e2] eqn:E2; cbn [rbind] in H.
  2:{ injection H as <-. destruct (contains 35 url1); [|discriminate].
      now apply unpack2_errors in E2. }
  destruct (if contains 63 url2 then _ else _)
    as [[url3 query]|e3] eqn:E3; cbn [rbind] in H.
  2:{ injection H as <-. destruct (contains 63 url2); [|discriminate].
      now apply unpack2_errors in E3. }
  destruct (_checknetloc normalize_NFKC netloc) as [[]|e4] eqn:E4;
    cbn [rbind] in H; [discriminate|].
  injection H as <-. now apply checknetloc_errors in E4.
Qed.

Lemma urlparse_errors (url : str) (e : exn) :
  urlparse normalize_NFKC url = Raise e -> e <> scheme_error.
Proof.
  unfold urlparse. intros H.
  destruct (urlsplit normalize_NFKC url) as [sr|e1] eqn:E1; cbn [rbind] in H.
  - other_error H.
  - injection H as <-. now apply urlsplit_errors in E1.
Qed.

Lemma port_errors (r : ParseResult) (e : exn) :
  port r = Raise e -> e <> scheme_error.
Proof.
  unfold port. destruct (snd (_hostinfo r)) as [p|]; [|discriminate].
  unfold int10. intros H.
  destruct (let '(sign, body) := _ in _) as [v|e1] eqn:E1; cbn [rbind] in H.
  - other_error H.
  - injection H as <-. other_error E1.
Qed.

(** X18.  Line 50 puts [https://] in front of every locator that does not
    start with it, so the scheme that [urlparse] finds is always
    [https]: the tests of lines 55 and 61 never succeed and
    [parse_node_uri] never raises the error of line 62. *)
Lemma parse_node_uri_never_rejects_scheme (uri : str) :
  parse uri <> Raise scheme_error.
Proof.
  unfold parse_node_uri.
  destruct (if contains 64 uri then _ else _)
    as [[checksum_address uri']|e0] eqn:E0; cbn [rbind].
  2:{ destruct (contains 64 uri); [|discriminate].
      destruct (unpack2 (split 64 None uri)) as [[a b]|e1] eqn:E1;
        cbn [rbind] in E0.
      - intros H. injection H as ->. other_error E0.
      - injection E0 as <-. apply unpack2_errors in E1. congruence. }
  set (url := if negb (startswith (lit "https://") uri')
              then lit "https://" ++ uri' else uri').
  assert (Hurl : exists rest, url = lit "https://" ++ rest).
  { unfold url. destruct (startswith (lit "https://") uri') eqn:E; cbn [negb].
    - now apply startswith_app.
    - now exists uri'. }
  destruct Hurl as [rest Hurl]. rewrite Hurl.
  destruct (urlparse normalize_NFKC (lit "https://" ++ rest)) as [r|e] eqn:E;
    cbn [rbind].
  2:{ apply urlparse_errors in E. congruence. }
  rewrite (urlparse_https_scheme _ _ E).
  change (is_empty (lit "https")) with false. cbv iota. cbn [rbind].
  rewrite (urlparse_https_scheme _ _ E).
  change (eqb (lit "https") (lit "https")) with true. cbn [negb].
  destruct (port r) as [p|e] eqn:Ep; cbn [rbind]; [discriminate|].
  apply port_errors in Ep. congruence.
Qed.

(** C6.  The locator [http://peer.example:9151] carries the scheme
    [http].  [parse_node_uri] raises nothing: it parses
    [https://http://peer.example:9151], whose network location is
    [http:], and returns the host [http] with the default port. *)
Theorem parse_node_uri_accepts_http_scheme :
  parse (lit "http://peer.example:9151")
  = Ok (Some (lit "http"), DEFAULT_REST_PORT, None).
Proof. vm_compute. reflexivity. Qed.

(** *** Bare host names *)

Lemma splitnetloc_bare (h : str) :
  contains 47 h = false -> contains 63 h = false -> contains 35 h = false ->
  _splitnetloc (lit "//" ++ h) 2 = (h, []).
Proof.
  intros H47 H63 H35. unfold _splitnetloc.
  assert (Hfind : forall c, contains c h = false ->
                            find_from c 2 (lit "//" ++ h) = -1).
  { intros c Hc. unfold find_from.
    change (from 2 (lit "//" ++ h)) with h. rewrite (find_absent c h Hc).
    now destruct (len (lit "//" ++ h) <? 2). }
  change (lit "/?#") with [47; 63; 35]. cbn [fold_left].
  rewrite !Hfind by assumption. cbv iota beta zeta.
  change (0 <=? -1) with false. cbv iota.
  unfold slice. change (from 2 (lit "//" ++ h)) with h.
  f_equal.
  - unfold upto, len. change (lit "//" ++ h) with (47 :: 47 :: h).
    cbn [List.length].
    replace (Z.to_nat (Z.of_nat (S (S (List.length h))) - 2))
      with (List.length h) by lia.
    apply firstn_all.
  - unfold from, len. rewrite Nat2Z.id. apply skipn_all.
Qed.

Lemma urlparse_bare (h : str) :
  forallb host_char h = true ->
  urlparse normalize_NFKC (lit "https://" ++ h)
  = Ok {| scheme := lit "https"; netloc := h; path := [];
          params := []; query := []; fragment := [] |}.
Proof.
  intros Hh.
  assert (Habsent : forall c, contains c (lit "@:/?#[]%") = true ->
                              contains c h = false)
    by (intros c; apply host_char_absent, Hh).
  unfold urlparse, urlsplit. rewrite split_scheme_https.
  change (eqb (upto 2 (lit "//" ++ h)) (lit "//")) with true. cbv iota.
  rewrite splitnetloc_bare by (apply Habsent; reflexivity).
  rewrite (Habsent 91), (Habsent 93) by reflexivity.
  cbn [andb orb negb rbind]. cbv iota. cbn [contains existsb rbind].
  unfold _checknetloc. rewrite (host_char_isascii h Hh), orb_true_r.
  cbn [rbind s_path s_scheme s_netloc s_query s_fragment].
  reflexivity.
Qed.

Lemma hostname_bare (h : str) (r : ParseResult) :
  forallb host_char h = true -> is_empty h = false -> netloc r = h ->
  hostname r = Some (lower h) /\ port r = Ok None.
Proof.
  intros Hh Hne Hr.
  assert (Habsent : forall c, contains c (lit "@:/?#[]%") = true ->
                              contains c h = false)
    by (intros c; apply host_char_absent, Hh).
  assert (Hinfo : _hostinfo r = (h, None)).
  { unfold _hostinfo. rewrite Hr.
    rewrite rpartition_absent by (apply Habsent; reflexivity).
    rewrite (partition_absent 91) by (apply Habsent; reflexivity).
    now rewrite (partition_absent 58) by (apply Habsent; reflexivity). }
  unfold hostname, port. rewrite Hinfo. cbn [fst snd]. rewrite Hne.
  rewrite (partition_absent 37) by (apply Habsent; reflexivity).
  cbn [app]. now rewrite app_nil_r.
Qed.

(** C7 (amended).  For a locator that is a bare host name (not empty,
    printable ASCII, without [@ : / ? # [ ] %]) [parse_node_uri] returns the host
    name in lower case, the default port and no identity; a host name
    without capital letters is returned as it was given. *)
Theorem parse_node_uri_bare_host (h : str) :
  bare_host h = true ->
  parse h = Ok (Some (lower h), DEFAULT_REST_PORT, None)
  /\ (lower h = h -> parse h = Ok (Some h, DEFAULT_REST_PORT, None)).
Proof.
  intros Hb. unfold bare_host in Hb. apply andb_true_iff in Hb as [Hne Hh].
  apply negb_true_iff in Hne.
  assert (Hparse : parse h = Ok (Some (lower h), DEFAULT_REST_PORT, None)).
  { unfold parse_node_uri.
    rewrite (host_char_absent h 64 Hh) by reflexivity. cbn [rbind].
    assert (Hstart : startswith (lit "https://") h = false).
    { destruct (startswith (lit "https://") h) eqn:E; [|reflexivity].
      apply startswith_app in E as [rest ->].
      pose proof (host_char_absent _ 58 Hh eq_refl) as Hcolon.
      vm_compute in Hcolon. discriminate. }
    rewrite Hstart. cbn [negb]. rewrite (urlparse_bare h Hh). cbn [rbind scheme].
    change (is_empty (lit "https")) with false. cbv iota. cbn [rbind scheme].
    change (eqb (lit "https") (lit "https")) with true. cbn [negb].
    destruct (hostname_bare h {| scheme := lit "https"; netloc := h; path := [];
          params := []; query := []; fragment := [] |} Hh Hne eq_refl) as [-> ->].
    reflexivity. }
  split; [exact Hparse|]. intros Hlow. now rewrite Hparse, Hlow.
Qed.

End UriFacts.

Lemma parse_node_uri_bare_host_witness :
  UriStatements.bare_host (Py.lit "peer.example") = true
  /\ parse_node_uri 9151 (fun _ => true) (fun s => s) (Py.lit "peer.example")
     = Ok (Some (Py.lit "peer.example"), 9151, None).
Proof.
  split; [reflexivity|].
  apply (parse_node_uri_bare_host 9151 (fun _ => true) (fun s => s)
           (Py.lit "peer.example")); reflexivity.
Defined.

(** The host name comes back in lower case, not as it was given. *)
Lemma parse_node_uri_lowers_host :
  UriStatements.bare_host (Py.lit "Peer.Example") = true
  /\ parse_node_uri 9151 (fun _ => true) (fun s => s) (Py.lit "Peer.Example")
     = Ok (Some (Py.lit "peer.example"), 9151, None)
  /\ Py.lit "peer.example" <> Py.lit "Peer.Example".
Proof.
  split; [reflexivity|]. split; [reflexivity|]. discriminate.
Qed.

Lemma parse_node_uri_rejects_two_ats_witness :
  (2 <= UriStatements.count 64 (Py.lit "a@b@peer.example:9151"))%nat
  /\ parse_node_uri 9151 (fun _ => true) (fun s => s)
       (Py.lit "a@b@peer.example:9151")
     = Raise (ValueError "too many values to unpack (expected 2)").
Proof.
  split.
  - cbn. lia.
  - apply parse_node_uri_rejects_two_ats. cbn. lia.
Defined.

(** * Further properties of the peer address *)

Section MoreAddressFacts.
Import Py InterfaceInfo AddressStatements.

Example repr_int_examples :
  repr_int 9151 = lit "9151" /\ repr_int 0 = lit "0"
  /\ repr_int (-42) = lit "-42" /\ repr_int 4294967295 = lit "4294967295".
Proof. repeat split. Qed.

Example uri_example :
  uri (__init__ (lit "localhost") 9151) = lit "127.0.0.1:9151"
  /\ formal_uri (__init__ (lit "peer.example") 9151)
     = lit "https://peer.example:9151".
Proof. split; reflexivity. Qed.

Lemma split_without_separator (sep : Z) (b : list Z) :
  ~ In sep b -> split sep (Some 1%nat) b = [b].
Proof.
  induction b as [|c b IH]; intros Hnot; [reflexivity|].
  cbn [split]. destruct (Z.eqb_spec c sep) as [->|_].
  - exfalso. apply Hnot. now left.
  - rewrite IH; [reflexivity|]. intros H. apply Hnot. now right.
Qed.

Lemma first_occurrence (sep : Z) (b : list Z) :
  In sep b -> exists h p, b = h ++ sep :: p /\ ~ In sep h.
Proof.
  induction b as [|c b IH]; intros Hin; [contradiction|].
  destruct (Z.eq_dec c sep) as [->|Hne].
  - exists [], b. split; [reflexivity|]. intros [].
  - destruct Hin as [E|Hin]; [congruence|].
    destruct (IH Hin) as (h & p & -> & Hh).
    exists (c :: h), p. split; [reflexivity|].
    intros [E|H]; [congruence|contradiction].
Qed.

(** The decoder fails in one way only. *)
Lemma utf8_decode_errors (b : bytes) (e : exn) :
  utf8_decode b = Raise e -> e = UnicodeDecodeError.
Proof.
  remember (List.length b) as n eqn:Hn.
  revert b Hn e. induction n as [n IH] using lt_wf_ind. intros b Hn e.
  assert (Hrec : forall r, (List.length r < n)%nat ->
            forall f : str -> str,
              (s <- utf8_decode r ;; Ok (f s))%res = Raise e ->
              e = UnicodeDecodeError).
  { intros r Hlt f H.
    destruct (utf8_decode r) as [x|e'] eqn:E; cbn [rbind] in H;
      [discriminate|].
    injection H as <-. exact (IH _ Hlt r eq_refl e' E). }
  destruct b as [|b0 r0]; cbn [utf8_decode]; [discriminate|].
  cbn [List.length] in Hn.
  destruct ((0 <=? b0) && (b0 <? 128)).
  { apply (Hrec r0); lia. }
  destruct ((194 <=? b0) && (b0 <? 224)).
  { destruct r0 as [|b1 r1]; [intros H; now injection H|].
    cbn [List.length] in Hn.
    destruct (is_cont b1); [|intros H; now injection H].
    apply (Hrec r1); lia. }
  destruct ((224 <=? b0) && (b0 <? 240)).
  { destruct r0 as [|b1 [|b2 r2]]; try (intros H; now injection H).
    cbn [List.length] in Hn. cbv zeta.
    destruct (is_cont b1 && is_cont b2 && _ && _);
      [|intros H; now injection H].
    apply (Hrec r2); lia. }
  destruct ((240 <=? b0) && (b0 <? 245)).
  { destruct r0 as [|b1 [|b2 [|b3 r3]]]; try (intros H; now injection H).
    cbn [List.length] in Hn. cbv zeta.
    destruct (is_cont b1 && is_cont b2 && is_cont b3 && _ && _);
      [|intros H; now injection H].
    apply (Hrec r3); lia. }
  intros H; now injection H.
Qed.

(** X1.  [from_bytes] raises [ValueError] exactly on the inputs without
    a colon byte; on every other input it returns an address or raises
    [UnicodeDecodeError], and the port bytes, of any number, are always
    accepted. *)
Theorem from_bytes_needs_a_colon (url_string : bytes) :
  (from_bytes url_string
   = Raise (ValueError "not enough values to unpack (expected 2)")
   <-> ~ In 58 url_string)
  /\ (In 58 url_string ->
      (exists address, from_bytes url_string = Ok address)
      \/ from_bytes url_string = Raise UnicodeDecodeError).
Proof.
  assert (Hcolon : In 58 url_string ->
            (exists address, from_bytes url_string = Ok address)
            \/ from_bytes url_string = Raise UnicodeDecodeError).
  { intros Hin. destruct (first_occurrence _ _ Hin) as (h & p & -> & Hh).
    unfold from_bytes. rewrite split_first by assumption.
    cbn [unpack2 rbind].
    destruct (utf8_decode h) as [host|e] eqn:E; cbn [rbind].
    - left. eexists. reflexivity.
    - right. now rewrite (utf8_decode_errors _ _ E). }
  split; [|exact Hcolon]. split.
  - intros Herr Hin. destruct (Hcolon Hin) as [[a Ha]|Hb]; congruence.
  - intros Hnot. unfold from_bytes.
    now rewrite split_without_separator.
Qed.

(** *** What the encoding looks like *)

Lemma utf8_char_bytes (c : Z) (b : bytes) :
  scalar_value c -> utf8_encode_char c = Ok b -> Forall is_byte b.
Proof.
  intros [Hrange Hsur]. unfold utf8_encode_char, is_byte.
  destruct (Z.ltb_spec c 128); [|destruct (Z.ltb_spec c 2048);
    [|destruct (Z.ltb_spec c 65536); [rewrite Hsur|]]];
    intros Henc;
    match type of Henc with
    | Ok ?l = Ok b => replace b with l by congruence
    end;
    repeat (apply Forall_cons; [Z.div_mod_to_equations; lia|]);
    apply Forall_nil.
Qed.

Lemma utf8_bytes (s : str) (b : bytes) :
  Forall scalar_value s -> utf8_encode s = Ok b -> Forall is_byte b.
Proof.
  intros Hs. revert b. induction Hs as [|c s Hc _ IH]; intros b H.
  - injection H as <-. constructor.
  - cbn [utf8_encode] in H.
    destruct (utf8_encode_char c) as [bc|] eqn:Ec; [|discriminate].
    destruct (utf8_encode s) as [bs|] eqn:Es; [|discriminate].
    cbn [rbind] in H. injection H as <-. apply Forall_app. split.
    + exact (utf8_char_bytes c bc Hc Ec).
    + now apply IH.
Qed.

Lemma utf8_encode_app (s t : str) :
  utf8_encode (s ++ t)
  = (a <- utf8_encode s ;; b <- utf8_encode t ;; Ok (a ++ b))%res.
Proof.
  induction s as [|c s IH]; cbn [app utf8_encode rbind].
  - now destruct (utf8_encode t).
  - destruct (utf8_encode_char c) as [bc|]; [|reflexivity]. cbn [rbind].
    rewrite IH. destruct (utf8_encode s) as [bs|]; [|reflexivity].
    cbn [rbind]. destruct (utf8_encode t) as [bt|]; [|reflexivity].
    cbn [rbind]. now rewrite app_assoc.
Qed.

Lemma utf8_encode_errors (s : str) (e : exn) :
  utf8_encode s = Raise e -> e = UnicodeEncodeError.
Proof.
  induction s as [|c s IH]; [discriminate|]. cbn [utf8_encode].
  destruct (utf8_encode_char c) as [bc|e'] eqn:Ec; cbn [rbind].
  - destruct (utf8_encode s) as [bs|e'']; cbn [rbind]; [discriminate|].
    intros H. injection H as <-. now apply IH.
  - intros H. injection H as <-. unfold utf8_encode_char in Ec.
    repeat match type of Ec with
           | (if ?c then _ else _) = _ => destruct c
           end; try discriminate. now injection Ec.
Qed.

Lemma utf8_encode_surrogate (s : str) (c : Z) :
  In c s -> is_surrogate c = true -> utf8_encode s = Raise UnicodeEncodeError.
Proof.
  intros Hin Hsur.
  destruct (utf8_encode s) as [b|e] eqn:E.
  - exfalso. revert b E. induction s as [|d s IH]; [contradiction|].
    intros b E. cbn [utf8_encode] in E.
    destruct (utf8_encode_char d) as [bd|] eqn:Ed; [|discriminate].
    destruct (utf8_encode s) as [bs|] eqn:Es; [|discriminate].
    destruct Hin as [->|Hin]; [|exact (IH Hin bs eq_refl)].
    unfold utf8_encode_char, is_surrogate in *.
    apply andb_true_iff in Hsur as [Hlo Hhi].
    apply Z.leb_le in Hlo, Hhi.
    destruct (Z.ltb_spec c 128); [lia|].
    destruct (Z.ltb_spec c 2048); [lia|].
    destruct (Z.ltb_spec c 65536); [|lia].
    replace (55296 <=? c) with true in Ed by (symmetry; apply Z.leb_le; lia).
    replace (c <=? 57343) with true in Ed by (symmetry; apply Z.leb_le; lia).
    discriminate.
  - now rewrite (utf8_encode_errors s e E).
Qed.

Lemma digits_big_length (n : nat) (v : Z) : List.length (digits_big n v) = n.
Proof.
  revert v. induction n as [|n IH]; intros v; [reflexivity|].
  cbn [digits_big]. rewrite length_app, IH. cbn. lia.
Qed.

Lemma digits_big_bytes (n : nat) (v : Z) : Forall is_byte (digits_big n v).
Proof.
  revert v. induction n as [|n IH]; intros v; cbn [digits_big].
  - constructor.
  - apply Forall_app. split; [apply IH|].
    repeat constructor; unfold is_byte; Z.div_mod_to_equations; lia.
Qed.

Lemma from_bytes_big_concat (x y : bytes) :
  from_bytes_big (x ++ y)
  = from_bytes_big x * 256 ^ len y + from_bytes_big y.
Proof.
  induction y as [|d y IH] using rev_ind.
  - rewrite app_nil_r. unfold len. cbn [List.length Z.of_nat].
    change (from_bytes_big []) with 0. rewrite Z.pow_0_r. lia.
  - rewrite app_assoc, !from_bytes_big_app, IH. unfold len.
    rewrite length_app. cbn [List.length].
    replace (Z.of_nat (List.length y + 1)) with (Z.succ (Z.of_nat (List.length y)))
      by lia.
    rewrite Z.pow_succ_r by lia. lia.
Qed.

Lemma from_bytes_big_nonneg (b : bytes) : Forall is_byte b -> 0 <= from_bytes_big b.
Proof.
  induction b as [|d b IH] using rev_ind; intros Hb.
  - unfold from_bytes_big. cbn. lia.
  - apply Forall_app in Hb as [Hb Hd]. inversion Hd as [|? ? Hd' _]; subst.
    rewrite from_bytes_big_app. specialize (IH Hb). unfold is_byte in Hd'. lia.
Qed.

(** X2.  [bytes(address)] is defined exactly for an encodable host and a
    port in [0, 2^32 - 1]: it is then the UTF-8 host, a colon and four
    port bytes.  A port outside the range raises [OverflowError] and a
    host with a surrogate code point raises [UnicodeEncodeError]. *)
Theorem bytes_defined_on_valid_addresses (address : t) :
  (Forall scalar_value (host address) ->
   0 <= port address < 2 ^ 32 ->
   exists hb,
     utf8_encode (host address) = Ok hb
     /\ __bytes__ address = Ok (hb ++ 58 :: digits_big 4 (port address))
     /\ Forall is_byte (hb ++ 58 :: digits_big 4 (port address))
     /\ len (hb ++ 58 :: digits_big 4 (port address)) = len hb + 5)
  /\ (Forall scalar_value (host address) ->
      port address < 0 \/ 2 ^ 32 <= port address ->
      exists msg, __bytes__ address = Raise (OverflowError msg))
  /\ (forall c, In c (host address) -> is_surrogate c = true ->
      __bytes__ address = Raise UnicodeEncodeError).
Proof.
  split; [|split].
  - intros Hs Hp. destruct (utf8_round_trip _ Hs) as (hb & Henc & _ & _).
    exists hb. split; [exact Henc|]. unfold __bytes__. rewrite Henc.
    cbn [rbind]. rewrite to_bytes_big_ok by (cbn; lia). cbn [rbind].
    split; [reflexivity|]. split.
    + apply Forall_app. split; [exact (utf8_bytes _ _ Hs Henc)|].
      constructor; [unfold is_byte; lia|apply digits_big_bytes].
    + unfold len. rewrite length_app. cbn [List.length].
      rewrite digits_big_length. lia.
  - intros Hs Hp. destruct (utf8_round_trip _ Hs) as (hb & Henc & _ & _).
    unfold __bytes__, to_bytes_big. rewrite Henc. cbn [rbind].
    destruct (Z.ltb_spec (port address) 0); [eexists; reflexivity|].
    destruct (Z.leb_spec (256 ^ Z.of_nat 4) (port address));
      [eexists; reflexivity|].
    exfalso. change (256 ^ Z.of_nat 4) with (2 ^ 32) in *. lia.
  - intros c Hin Hsur. unfold __bytes__.
    now rewrite (utf8_encode_surrogate _ c Hin Hsur).
Qed.

(** *** Decoding more than one encoding *)

Lemma not_in_literal (c : Z) (l : list Z) :
  existsb (Z.eqb c) l = false -> ~ In c l.
Proof.
  induction l as [|d l IH]; cbn; [tauto|].
  intros H. apply orb_false_iff in H as [Hd Hl]. apply Z.eqb_neq in Hd.
  intros [E|Hin]; [congruence|]. now apply IH.
Qed.

Lemma init_host_normalised (h : str) (p : Z) :
  eqb (host (__init__ h p)) (lit "localhost") = false.
Proof.
  rewrite init_host. destruct (eqb h (lit "localhost")) eqn:E;
    [reflexivity|exact E].
Qed.

Lemma init_of_normalised (h : str) (p q : Z) :
  __init__ (host (__init__ h p)) q
  = {| host := host (__init__ h p); port := q |}.
Proof.
  unfold __init__ at 1. cbv zeta. now rewrite init_host_normalised.
Qed.

Lemma init_host_scalar (h : str) (p : Z) :
  Forall scalar_value h -> Forall scalar_value (host (__init__ h p)).
Proof.
  intros Hs. rewrite init_host. destruct (eqb h (lit "localhost")); [|exact Hs].
  repeat constructor; cbn; lia.
Qed.

Lemma init_host_no_colon (h : str) (p : Z) :
  ~ In 58 h -> ~ In 58 (host (__init__ h p)).
Proof.
  intros Hc. rewrite init_host. destruct (eqb h (lit "localhost")); [|exact Hc].
  now apply not_in_literal.
Qed.

(** What [from_bytes] reads after the encoded host and its colon is the
    port, however long it is. *)
Lemma from_bytes_reads_all (h : str) (p : Z) :
  Forall scalar_value h -> ~ In 58 h ->
  exists hb,
    utf8_encode (host (__init__ h p)) = Ok hb
    /\ Forall is_byte hb
    /\ forall tail,
        from_bytes (hb ++ 58 :: tail)
        = Ok {| host := host (__init__ h p); port := from_bytes_big tail |}.
Proof.
  intros Hs Hc.
  destruct (utf8_round_trip _ (init_host_scalar h p Hs))
    as (hb & Henc & Hdec & Hhb).
  exists hb. split; [exact Henc|].
  split; [exact (utf8_bytes _ _ (init_host_scalar h p Hs) Henc)|].
  intros tail. unfold from_bytes.
  rewrite split_first by (apply Hhb, init_host_no_colon, Hc).
  cbn [unpack2 rbind]. rewrite Hdec. cbn [rbind].
  now rewrite init_of_normalised.
Qed.

(** X3.  [from_bytes] does not check the length of its input: on the
    encoding of an address with [n] more bytes behind it, it returns the
    same host and a port shifted by [n] bytes with the extra bytes read
    into it. *)
Theorem from_bytes_reads_trailing_bytes (h : str) (p : Z) (extra : bytes) :
  Forall scalar_value h ->
  ~ In 58 h ->
  0 <= p < 2 ^ 32 ->
  let address := __init__ h p in
  exists b,
    __bytes__ address = Ok b
    /\ from_bytes (b ++ extra)
       = Ok {| host := host address;
               port := p * 256 ^ len extra + from_bytes_big extra |}.
Proof.
  intros Hs Hc Hp. cbv zeta.
  destruct (from_bytes_reads_all h p Hs Hc) as (hb & Henc & _ & Hread).
  exists (hb ++ 58 :: digits_big 4 p). unfold __bytes__. rewrite Henc.
  cbn [rbind port __init__].
  rewrite to_bytes_big_ok by (cbn; lia). cbn [rbind].
  split; [reflexivity|].
  rewrite <- app_assoc. cbn [app]. rewrite Hread.
  rewrite from_bytes_big_concat, from_bytes_digits by (cbn; lia).
  reflexivity.
Qed.

(** X4.  [a + b] and [b.__radd__(a)] are the encoding of [a] followed by
    that of [b].  Decoding the sum gives the host of [a] with a port of
    at least [2^32]: the first address does not come back, and the
    second one is lost. *)
Theorem sum_of_addresses_does_not_decode (h1 h2 : str) (p1 p2 : Z) :
  Forall scalar_value h1 ->
  ~ In 58 h1 ->
  0 <= p1 < 2 ^ 32 ->
  Forall scalar_value h2 ->
  0 <= p2 < 2 ^ 32 ->
  let a := __init__ h1 p1 in
  let b := __init__ h2 p2 in
  exists ba bb decoded,
    __bytes__ a = Ok ba
    /\ __bytes__ b = Ok bb
    /\ __add__ a b = Ok (ba ++ bb)
    /\ __radd__ b a = Ok (ba ++ bb)
    /\ from_bytes (ba ++ bb) = Ok decoded
    /\ host decoded = host a
    /\ 2 ^ 32 <= port decoded.
Proof.
  intros Hs1 Hc1 Hp1 Hs2 Hp2. cbv zeta.
  destruct (from_bytes_reads_all h1 p1 Hs1 Hc1) as (hb1 & Henc1 & _ & Hread).
  destruct (utf8_round_trip _ (init_host_scalar h2 p2 Hs2))
    as (hb2 & Henc2 & _ & _).
  pose proof (utf8_bytes _ _ (init_host_scalar h2 p2 Hs2) Henc2) as Hbytes2.
  set (ba := hb1 ++ 58 :: digits_big 4 p1).
  set (bb := hb2 ++ 58 :: digits_big 4 p2).
  assert (Ha : __bytes__ (__init__ h1 p1) = Ok ba).
  { unfold __bytes__. rewrite Henc1. cbn [rbind port __init__].
    now rewrite to_bytes_big_ok by (cbn; lia). }
  assert (Hb : __bytes__ (__init__ h2 p2) = Ok bb).
  { unfold __bytes__. rewrite Henc2. cbn [rbind port __init__].
    now rewrite to_bytes_big_ok by (cbn; lia). }
  exists ba, bb. eexists.
  split; [exact Ha|]. split; [exact Hb|].
  split; [unfold __add__; now rewrite Ha, Hb|].
  split; [unfold __radd__; now rewrite Ha, Hb|].
  unfold ba. rewrite <- app_assoc. cbn [app]. rewrite Hread.
  split; [reflexivity|]. split; [reflexivity|]. cbn [port].
  rewrite from_bytes_big_concat, from_bytes_digits by (cbn; lia).
  unfold bb. rewrite from_bytes_big_concat.
  change (58 :: digits_big 4 p2) with ([58] ++ digits_big 4 p2).
  rewrite (from_bytes_big_concat [58]), from_bytes_digits by (cbn; lia).
  pose proof (from_bytes_big_nonneg hb2 Hbytes2) as Hn.
  unfold len. rewrite !length_app, digits_big_length. cbn [List.length].
  change (from_bytes_big [58]) with 58.
  assert (H1 : 0 < 256 ^ Z.of_nat (1 + 4)) by (apply Z.pow_pos_nonneg; lia).
  assert (H2 : 0 < 256 ^ Z.of_nat (List.length hb2 + (1 + 4)))
    by (apply Z.pow_pos_nonneg; lia).
  change (256 ^ Z.of_nat 4) with 4294967296.
  change (2 ^ 32) with 4294967296 in *. nia.
Qed.

(** X5.  A host with a colon in it (an IPv6 literal, say) does not
    survive the round trip: [from_bytes] cuts the encoding at the first
    colon and returns a host without any colon. *)
Theorem colon_in_host_breaks_round_trip (h : str) (p : Z) :
  Forall scalar_value h ->
  In 58 h ->
  0 <= p < 2 ^ 32 ->
  let address := __init__ h p in
  exists b decoded,
    __bytes__ address = Ok b
    /\ from_bytes b = Ok decoded
    /\ ~ In 58 (host decoded)
    /\ host decoded <> host address.
Proof.
  intros Hs Hin Hp. cbv zeta.
  assert (Hhost : host (__init__ h p) = h).
  { rewrite init_host. destruct (eqb h (lit "localhost")) eqn:E; [|reflexivity].
    apply eqb_eq in E. subst h. exfalso. revert Hin. now apply not_in_literal. }
  destruct (first_occurrence _ _ Hin) as (h1 & h2 & Hsplit & Hh1).
  assert (Hs1 : Forall scalar_value h1 /\ Forall scalar_value h2).
  { rewrite Hsplit in Hs. apply Forall_app in Hs as [H1 H2].
    inversion H2; subst. auto. }
  destruct Hs1 as [Hs1 Hs2].
  destruct (utf8_round_trip _ Hs1) as (e1 & Henc1 & Hdec1 & He1).
  destruct (utf8_round_trip _ Hs2) as (e2 & Henc2 & _ & _).
  assert (Henc : utf8_encode h = Ok (e1 ++ 58 :: e2)).
  { rewrite Hsplit, utf8_encode_app, Henc1. cbn [rbind utf8_encode].
    change (utf8_encode_char 58) with (Ok [58] : outcome bytes).
    cbn [rbind]. rewrite Henc2. reflexivity. }
  exists ((e1 ++ 58 :: e2) ++ 58 :: digits_big 4 p). eexists.
  split.
  { unfold __bytes__. rewrite Hhost, Henc. cbn [rbind port __init__].
    now rewrite to_bytes_big_ok by (cbn; lia). }
  unfold from_bytes. rewrite <- app_assoc. cbn [app].
  rewrite split_first by auto. cbn [unpack2 rbind]. rewrite Hdec1.
  cbn [rbind]. split; [reflexivity|].
  assert (Hno : ~ In 58 (host (__init__ h1
                  (from_bytes_big (e2 ++ 58 :: digits_big 4 p)))))
    by (apply init_host_no_colon, Hh1).
  split; [exact Hno|]. rewrite Hhost. intros E. apply Hno. now rewrite E.
Qed.

Lemma from_bytes_reads_trailing_bytes_witness :
  let address := __init__ (lit "peer.example") 9151 in
  exists b,
    __bytes__ address = Ok b
    /\ from_bytes (b ++ [1; 2])
       = Ok {| host := host address;
               port := 9151 * 256 ^ len [1; 2] + from_bytes_big [1; 2] |}.
Proof.
  apply (from_bytes_reads_trailing_bytes (lit "peer.example") 9151 [1; 2]).
  - repeat constructor; cbn; lia.
  - now apply not_in_literal.
  - cbn. lia.
Defined.

Lemma sum_of_addresses_does_not_decode_witness :
  let a := __init__ (lit "peer.example") 9151 in
  let b := __init__ (lit "localhost") 443 in
  exists ba bb decoded,
    __bytes__ a = Ok ba
    /\ __bytes__ b = Ok bb
    /\ __add__ a b = Ok (ba ++ bb)
    /\ __radd__ b a = Ok (ba ++ bb)
    /\ from_bytes (ba ++ bb) = Ok decoded
    /\ host decoded = host a
    /\ 2 ^ 32 <= port decoded.
Proof.
  apply (sum_of_addresses_does_not_decode
           (lit "peer.example") (lit "localhost") 9151 443).
  - repeat constructor; cbn; lia.
  - now apply not_in_literal.
  - cbn. lia.
  - repeat constructor; cbn; lia.
  - cbn. lia.
Defined.

Lemma colon_in_host_breaks_round_trip_witness :
  let address := __init__ (lit "::1") 9151 in
  exists b decoded,
    __bytes__ address = Ok b
    /\ from_bytes b = Ok decoded
    /\ ~ In 58 (host decoded)
    /\ host decoded <> host address.
Proof.
  apply (colon_in_host_breaks_round_trip (lit "::1") 9151).
  - repeat constructor; cbn; lia.
  - cbn. auto.
  - cbn. lia.
Defined.

Lemma bytes_defined_on_valid_addresses_witness :
  let address := __init__ (lit "peer.example") 9151 in
  exists hb,
    utf8_encode (host address) = Ok hb
    /\ __bytes__ address = Ok (hb ++ 58 :: digits_big 4 (port address))
    /\ Forall is_byte (hb ++ 58 :: digits_big 4 (port address))
    /\ len (hb ++ 58 :: digits_big 4 (port address)) = len hb + 5.
Proof.
  apply (proj1 (bytes_defined_on_valid_addresses
                  (__init__ (lit "peer.example") 9151))).
  - repeat constructor; cbn; lia.
  - cbn. lia.
Defined.

End MoreAddressFacts.

(** * Further properties of the availability sensor *)

Section MoreSensorFacts.
Import Py Collections AvailabilitySensor Statements RoundStatements.
Local Open Scope sensor_scope.

(** *** The window *)

(** X6.  Whatever sequence of [start], [stop], [record] and [maintain]
    calls a sensor built with retention [r] has gone through, its
    retention, the capacity of its window and its escalation policy are
    those of the constructor, and the window holds at most [r]
    records. *)
Theorem window_stays_within_retention (r : Z) (s : Sensor) :
  configured r s ->
  0 <= r
  /\ retention s = r
  /\ maxlen (_records s) = r
  /\ 0 <= len (items (_records s)) <= r
  /\ forall i ss se s0, __init__ i ss se r = Ok s0 -> warnings s = warnings s0.
Proof.
  intros Hc. destruct (configured_inv r s Hc) as (Hr & Hret & Hw & Hmax & Hlen).
  repeat split; try assumption.
  - unfold len. lia.
  - intros i ss se s0 Hinit. rewrite Hw. unfold __init__, deque_new in Hinit.
    destruct (r <? 0); cbn in Hinit; [discriminate|]. now injection Hinit as <-.
Qed.

Lemma window_stays_within_retention_witness :
  exists s0, __init__ 120 3 2 2 = Ok s0
    /\ let env := example_node [1; 2; 3] false 1000 in
       let s := sensor (snd (record_each (repeat (env, true) 5)
                               {| sensor := s0; trace := [] |})) in
       0 <= 2
       /\ retention s = 2
       /\ maxlen (_records s) = 2
       /\ 0 <= len (items (_records s)) <= 2
       /\ forall i ss se s1, __init__ i ss se 2 = Ok s1 -> warnings s = warnings s1.
Proof.
  eexists. split; [reflexivity|]. cbv zeta.
  apply window_stays_within_retention.
  apply configured_record_each. cbn [sensor].
  eapply configured_init. reflexivity.
Defined.

Lemma append_keeps_last (r : nat) (x : Record_) (d : deque Record_) :
  maxlen d = Z.of_nat r ->
  (List.length (items d) <= r)%nat ->
  items (append x d)
  = skipn (List.length (items d ++ [x]) - r) (items d ++ [x])
  /\ (List.length (items (append x d)) <= r)%nat.
Proof.
  intros Hmax Hlen. unfold append. cbn [items]. rewrite Hmax, length_app.
  cbn [List.length].
  destruct (Z.ltb_spec (Z.of_nat r) (Z.of_nat (List.length (items d) + 1))).
  - replace (List.length (items d) + 1 - r)%nat with 1%nat by lia.
    destruct (items d ++ [x]) as [|a l] eqn:E.
    + destruct (items d); discriminate.
    + cbn [tl skipn]. split; [reflexivity|].
      apply (f_equal (@List.length _)) in E. rewrite length_app in E.
      cbn [List.length] in E. lia.
  - replace (List.length (items d) + 1 - r)%nat with 0%nat by lia.
    cbn [skipn]. split; [reflexivity|]. rewrite length_app. cbn. lia.
Qed.

Lemma record_all_keeps_last (r : nat) (calls : list (Env * bool)) :
  forall s,
    maxlen (_records s) = Z.of_nat r ->
    (List.length (items (_records s)) <= r)%nat ->
    let all := items (_records s) ++ map measurement_of calls in
    items (_records (record_all calls s)) = skipn (List.length all - r) all.
Proof.
  induction calls as [|c calls IH]; intros s Hmax Hlen; cbv zeta.
  - cbn [record_all fold_left map]. rewrite app_nil_r.
    replace (List.length (items (_records s)) - r)%nat with 0%nat by lia.
    reflexivity.
  - cbn [record_all fold_left map].
    destruct (append_keeps_last r (measurement_of c) (_records s) Hmax Hlen)
      as [Hitems Hlen'].
    fold (record_all calls (set__records (append (measurement_of c)) s)).
    rewrite (IH (set__records (append (measurement_of c)) s));
      [|exact Hmax|exact Hlen'].
    cbv zeta. cbn [_records set__records]. rewrite Hitems.
    set (l := items (_records s)) in *. set (x := measurement_of c) in *.
    set (ms := map measurement_of calls).
    replace (l ++ x :: ms) with ((l ++ [x]) ++ ms)
      by (rewrite <- app_assoc; reflexivity).
    assert (Hlx : List.length (l ++ [x]) = (List.length l + 1)%nat)
      by (rewrite length_app; reflexivity).
    rewrite Hlx.
    destruct (Nat.le_gt_cases (List.length l + 1) r) as [Hfit|Hover].
    + replace (List.length l + 1 - r)%nat with 0%nat by lia.
      reflexivity.
    + replace (List.length l + 1 - r)%nat with 1%nat by lia.
      destruct (l ++ [x]) as [|a t] eqn:E; [destruct l; discriminate|].
      cbn [List.length] in Hlx. cbn [skipn app List.length].
      rewrite length_app.
      replace (List.length t + List.length ms - r)%nat
        with (List.length ms) by lia.
      replace (S (List.length t + List.length ms) - r)%nat
        with (S (List.length ms)) by lia.
      reflexivity.
Qed.

(** X7.  The window slides: after any number of [record] calls on a
    fresh sensor of retention [r], it holds the last [r] measurements in
    the order of the calls, or all of them while there are fewer than
    [r]; each holds the time and the result of its call.  Nothing is
    logged and no action is called. *)
Theorem window_keeps_the_last_records
  (i ss se r : Z) (s0 : Sensor) (calls : list (Env * bool))
  (tr : list Event) :
  __init__ i ss se r = Ok s0 ->
  exists w,
    record_each calls {| sensor := s0; trace := tr |} = (Ok tt, w)
    /\ trace w = tr
    /\ items (_records (sensor w))
       = skipn (List.length calls - Z.to_nat r) (map measurement_of calls).
Proof.
  intros Hinit. rewrite record_each_eq. eexists. split; [reflexivity|].
  split; [reflexivity|]. cbn [sensor].
  unfold __init__, deque_new in Hinit.
  destruct (Z.ltb_spec r 0); cbn in Hinit; [discriminate|].
  injection Hinit as <-.
  rewrite (record_all_keeps_last (Z.to_nat r)); cbn [_records maxlen items];
    [|lia|cbn; lia].
  cbv zeta. cbn [app]. now rewrite length_map.
Qed.

Lemma window_keeps_the_last_records_witness :
  exists s0, __init__ 120 3 2 2 = Ok s0
    /\ let e := example_node [1; 2; 3] false in
       let calls := [(e 10, true); (e 20, false); (e 30, true)] in
       exists w,
         record_each calls {| sensor := s0; trace := [] |} = (Ok tt, w)
         /\ trace w = []
         /\ items (_records (sensor w))
            = skipn (List.length calls - Z.to_nat 2) (map measurement_of calls).
Proof.
  eexists. split; [reflexivity|]. cbv zeta.
  eapply window_keeps_the_last_records. reflexivity.
Defined.

(** *** The score *)

(** X8.  On a sensor with a positive retention the score is a fraction
    between 0 and 1 in every reachable state, and reading it changes
    nothing. *)
Theorem score_is_between_0_and_1 (r : Z) (w : World) :
  configured r (sensor w) ->
  0 < r ->
  exists q, score w = (Ok q, w) /\ (0 <= q)%Q /\ (q <= 1)%Q.
Proof.
  intros Hc Hr. destruct (configured_inv _ _ Hc) as (_ & Hret & _ & _ & Hlen).
  rewrite score_eq by lia. rewrite Hret. eexists. split; [reflexivity|].
  set (f := len (filter result (items (_records (sensor w))))).
  assert (Hf : 0 <= f <= r).
  { unfold f, len in *.
    pose proof (filter_length_le result (items (_records (sensor w)))). lia. }
  split.
  - apply Qle_bool_iff. change 0%Q with (inject_Z 0).
    rewrite Qle_bool_ratio by lia. apply Z.leb_le. lia.
  - destruct r as [|p|p]; try lia.
    unfold Qle, Qdiv, Qmult, Qinv, inject_Z. cbn. lia.
Qed.

Lemma score_is_between_0_and_1_witness :
  exists s0, __init__ 120 3 2 4 = Ok s0
    /\ 0 < 4
    /\ let env := example_node [1; 2; 3] false 1000 in
       let w := snd (record_each [(env, true); (env, false)]
                       {| sensor := s0; trace := [] |}) in
       exists q, score w = (Ok q, w) /\ (0 <= q)%Q /\ (q <= 1)%Q.
Proof.
  eexists. split; [reflexivity|]. split; [lia|]. cbv zeta.
  apply (score_is_between_0_and_1 4); [|lia].
  apply configured_record_each. cbn [sensor].
  eapply configured_init. reflexivity.
Defined.



(** *** A measurement *)

Lemma with_trace_twice (w : World) (a b : list Event) :
  with_trace (with_trace w a) b = with_trace w (a ++ b).
Proof. unfold with_trace. cbn. now rewrite app_assoc. Qed.

Lemma with_trace_nil (w : World) : with_trace w [] = w.
Proof. unfold with_trace. rewrite app_nil_r. apply world_eta. Qed.

Lemma measure_loop_counts (env : Env) (ursulas : list Peer) :
  Forall (probe_answers env) ursulas ->
  forall succeeded failed w,
    measure_loop env ursulas succeeded failed w
    = (Ok (succeeded
           + len (filter (fun p => negb (probe_fails env p)) ursulas),
           failed + len (filter (probe_fails env) ursulas)),
       with_trace w (map Probed ursulas)).
Proof.
  induction 1 as [|p ps [c Hp] _ IH]; intros succeeded failed w.
  - cbn. unfold ret. rewrite with_trace_nil, !Z.add_0_r. reflexivity.
  - cbn [measure_loop]. unfold bind at 1, emit. unfold bind at 1, lift.
    rewrite Hp. fold (with_trace w [Probed p]).
    assert (Hpf : probe_fails env p = negb (c =? 200))
      by (unfold probe_fails; now rewrite Hp).
    cbn [filter map]. rewrite Hpf.
    destruct (c =? 200); cbn [negb]; rewrite IH, with_trace_twice;
      unfold len; cbn [List.length app];
      match goal with
      | |- context [Z.of_nat (S ?n)] =>
          replace (Z.of_nat (S n)) with (1 + Z.of_nat n) by lia
      end;
      rewrite Z.add_assoc; reflexivity.
Qed.

Lemma measure_loop_stops (env : Env) (pre post : list Peer) (p : Peer)
  (e : exn) :
  Forall (probe_answers env) pre ->
  network_middleware_measure env p = Raise e ->
  forall succeeded failed w,
    measure_loop env (pre ++ p :: post) succeeded failed w
    = (Raise e, with_trace w (map Probed (pre ++ [p]))).
Proof.
  intros Hpre Hp. induction Hpre as [|q qs [c Hq] _ IH];
    intros succeeded failed w.
  - cbn [app measure_loop map]. unfold bind at 1, emit.
    unfold bind at 1, lift. now rewrite Hp.
  - cbn [app measure_loop map]. unfold bind at 1, emit.
    unfold bind at 1, lift. rewrite Hq. fold (with_trace w [Probed q]).
    destruct (c =? 200); rewrite IH, with_trace_twice; reflexivity.
Qed.

Lemma sample_draws (env : Env) (quantity : Z) (w : World) :
  0 <= quantity <= len (known_nodes env) ->
  sample env quantity w
  = (Ok (random_sample env (known_nodes env) quantity),
     with_trace w [Sampled quantity]).
Proof.
  intros Hq. unfold sample, bind, emit.
  destruct (Z.ltb_spec quantity 0); [lia|].
  destruct (Z.ltb_spec (len (known_nodes env)) quantity); [lia|].
  reflexivity.
Qed.

(** X10.  With [sensitivity <= sample_size], enough known peers and
    every drawn peer answering, [measure] draws one sample, probes each
    of its peers once and in order, changes nothing in the sensor, and
    returns whether the number of answers other than 200 reaches
    [sensitivity]. *)
Theorem measure_counts_failed_probes (env : Env) (w : World) :
  sensitivity (sensor w) <= sample_size (sensor w) ->
  0 <= sample_size (sensor w) <= len (known_nodes env) ->
  Forall (probe_answers env) (drawn env (sensor w)) ->
  measure env w
  = (Ok (round_result env (sensor w)),
     with_trace w (round_events (sensor w) (drawn env (sensor w)))).
Proof.
  intros Hsens Hsize Hanswers. unfold measure, bind at 1, self.
  destruct (Z.gtb_spec (sensitivity (sensor w)) (sample_size (sensor w)));
    [lia|].
  unfold bind at 1. rewrite sample_draws by assumption.
  unfold bind at 1. fold (drawn env (sensor w)).
  rewrite (measure_loop_counts env _ Hanswers), with_trace_twice.
  cbn [app]. unfold ret, round_result, round_events.
  now rewrite Z.add_0_l.
Qed.

Lemma measure_counts_failed_probes_witness :
  exists s0, __init__ 120 3 2 10 = Ok s0
    /\ let env := example_node [1; 2; 3; 4] false 1000 in
       let w := {| sensor := s0; trace := [] |} in
       measure env w
       = (Ok (round_result env (sensor w)),
          with_trace w (round_events (sensor w) (drawn env (sensor w)))).
Proof.
  eexists. split; [reflexivity|]. cbv zeta.
  apply measure_counts_failed_probes.
  - cbn. lia.
  - cbn. lia.
  - repeat constructor; eexists; reflexivity.
Defined.

(** *** A whole round *)

Lemma issue_warnings_keeps_sensor (env : Env) (w : World) :
  sensor (snd (issue_warnings env w)) = sensor w.
Proof.
  destruct (respects_issue_warnings (fun s s' => s' = s) (fun _ => True)
              (fun _ => eq_refl)
              (fun s1 s2 s3 H12 H23 => eq_trans H23 H12)
              (fun _ _ => I) (fun _ => I) env w) as [H _].
  exact H.
Qed.

(** X11.  In a round with enough known peers, a usable configuration
    and every drawn peer answering, [maintain] measures, appends one
    record holding the current time and the result of the measurement,
    and then runs [issue_warnings] on that state.  Whatever
    [issue_warnings] does, the sensor that the round leaves is the old
    one with that record appended. *)
Theorem maintain_records_the_measurement (env : Env) (w : World) :
  measurable env (sensor w) ->
  Forall (probe_answers env) (drawn env (sensor w)) ->
  let measurement :=
    {| time := now env; result := round_result env (sensor w) |} in
  let recorded :=
    {| sensor := set__records (append measurement) (sensor w);
       trace := trace w ++ round_events (sensor w) (drawn env (sensor w)) |} in
  maintain env w = issue_warnings env recorded
  /\ sensor (snd (maintain env w))
     = set__records (append measurement) (sensor w).
Proof.
  intros (Hknown & Hsize & Hsens) Hanswers. cbv zeta.
  assert (Heq : maintain env w
                = issue_warnings env
                    {| sensor := set__records
                         (append {| time := now env;
                                    result := round_result env (sensor w) |})
                         (sensor w);
                       trace := trace w
                                ++ round_events (sensor w)
                                     (drawn env (sensor w)) |}).
  { destruct (known_nodes env) as [|p ps] eqn:E; [congruence|].
    rewrite (maintain_populated env w p ps E). rewrite <- E in *.
    destruct (Z.ltb_spec (len (known_nodes env)) (sample_size (sensor w)));
      [lia|].
    unfold bind at 1.
    rewrite measure_counts_failed_probes by assumption.
    unfold bind at 1, record, update. reflexivity. }
  split; [exact Heq|]. rewrite Heq. now rewrite issue_warnings_keeps_sensor.
Qed.

Lemma maintain_records_the_measurement_witness :
  exists s0, __init__ 120 3 2 10 = Ok s0
    /\ let env := example_node [1; 2; 3; 4] false 1000 in
       let w := {| sensor := s0; trace := [] |} in
       let measurement :=
         {| time := now env; result := round_result env (sensor w) |} in
       let recorded :=
         {| sensor := set__records (append measurement) (sensor w);
            trace := trace w
                     ++ round_events (sensor w) (drawn env (sensor w)) |} in
       maintain env w = issue_warnings env recorded
       /\ sensor (snd (maintain env w))
          = set__records (append measurement) (sensor w).
Proof.
  eexists. split; [reflexivity|]. cbv zeta.
  apply (maintain_records_the_measurement
           (example_node [1; 2; 3; 4] false 1000)).
  - split; [discriminate|]. cbn. lia.
  - repeat constructor; eexists; reflexivity.
Defined.

(** X12.  If the probe of a drawn peer raises, the round stops there:
    the peers drawn before it have been probed, the others are not, the
    exception leaves [maintain], and nothing is recorded. *)
Theorem maintain_stops_at_a_failing_probe
  (env : Env) (w : World) (pre post : list Peer) (p : Peer) (e : exn) :
  measurable env (sensor w) ->
  drawn env (sensor w) = pre ++ p :: post ->
  Forall (probe_answers env) pre ->
  network_middleware_measure env p = Raise e ->
  maintain env w
  = (Raise e, with_trace w (round_events (sensor w) (pre ++ [p]))).
Proof.
  intros (Hknown & Hsize & Hsens) Hdrawn Hpre Hp.
  destruct (known_nodes env) as [|q qs] eqn:E; [congruence|].
  rewrite (maintain_populated env w q qs E). rewrite <- E in *.
  destruct (Z.ltb_spec (len (known_nodes env)) (sample_size (sensor w)));
    [lia|].
  unfold bind at 1, measure. unfold bind at 1, self.
  destruct (Z.gtb_spec (sensitivity (sensor w)) (sample_size (sensor w)));
    [lia|].
  unfold bind at 1. rewrite sample_draws by assumption.
  unfold bind at 1. fold (drawn env (sensor w)). rewrite Hdrawn.
  rewrite (measure_loop_stops env pre post p e Hpre Hp), with_trace_twice.
  reflexivity.
Qed.

Lemma maintain_stops_at_a_failing_probe_witness :
  exists s0, __init__ 120 3 2 10 = Ok s0
    /\ let env :=
         {| known_nodes := [1; 2; 3];
            lonely := false;
            rest_url := lit "127.0.0.1:9151";
            ursula_str := lit "Ursula";
            network_middleware_measure :=
              fun p => if p =? 2 then Raise (ValueError "no route to host")
                       else Ok 200;
            now := 1000;
            random_sample := fun population _ => population |} in
       let w := {| sensor := s0; trace := [] |} in
       maintain env w
       = (Raise (ValueError "no route to host"),
          with_trace w (round_events (sensor w) ([1] ++ [2]))).
Proof.
  eexists. split; [reflexivity|]. cbv zeta.
  eapply maintain_stops_at_a_failing_probe with (post := [3]).
  - split; [discriminate|]. cbn. lia.
  - reflexivity.
  - repeat constructor. eexists. reflexivity.
  - reflexivity.
Defined.

(** *** Small windows *)

(** X13.  With retention 1, 2 or 3 the mild action has lost its entry
    in the policy and is never called.  With retention 2 or 3
    [issue_warnings] does nothing until the window is full of failures
    and then calls the medium action, which raises [AttributeError].
    With retention 1 it raises in every state: it calls the severe
    action when the record is a failure, the medium action otherwise. *)
Theorem issue_warnings_with_small_retention
  (r : Z) (env : Env) (w : World) :
  configured r (sensor w) ->
  1 <= r <= 3 ->
  issue_warnings env w
  = if r =? 1 then
      if full_of_failures (sensor w)
      then (Raise (AttributeError "critial"),
            with_trace w [Invoked InIssueWarnings Severe])
      else (Raise (AttributeError "warning"),
            with_trace w [Invoked InIssueWarnings Medium])
    else
      if full_of_failures (sensor w)
      then (Raise (AttributeError "warning"),
            with_trace w [Invoked InIssueWarnings Medium])
      else (Ok tt, w).
Proof.
  intros Hc Hr. destruct (configured_inv _ _ Hc) as (_ & Hret & Hw & _ & Hlen).
  set (f := len (filter result (items (_records (sensor w))))).
  assert (Hf : 0 <= f <= r).
  { unfold f, len in *.
    pose proof (filter_length_le result (items (_records (sensor w)))). lia. }
  assert (Hscore : score w = (Ok (inject_Z f / inject_Z r)%Q, w)).
  { rewrite score_eq by lia. now rewrite Hret. }
  unfold full_of_failures. fold f. rewrite Hret.
  unfold issue_warnings, bind at 1, self. rewrite Hw.
  assert (Hcases : r = 1 \/ r = 2 \/ r = 3) by lia.
  destruct Hcases as [->|[->| ->]].
  - change (setitem 1 Severe (setitem (1 / 2) Medium (setitem 1 Mild [])))
      with [(1, Severe); (0, Medium)].
    rewrite (issue_warnings_loop_cons _ _ _ _ _ _ Hscore), Qle_bool_ratio by lia.
    change (1 =? 1) with true. cbv iota.
    destruct (Z.eqb_spec f 1) as [E|E].
    + replace (1 * 1 <=? f) with true by (symmetry; apply Z.leb_le; lia).
      reflexivity.
    + replace (1 * 1 <=? f) with false by (symmetry; apply Z.leb_gt; lia).
      rewrite (issue_warnings_loop_cons _ _ _ _ _ _ Hscore), Qle_bool_ratio by lia.
      replace (0 * 1 <=? f) with true by (symmetry; apply Z.leb_le; lia).
      reflexivity.
  - change (setitem 2 Severe (setitem (2 / 2) Medium (setitem 1 Mild [])))
      with [(1, Medium); (2, Severe)].
    rewrite (issue_warnings_loop_cons _ _ _ _ _ _ Hscore), Qle_bool_ratio by lia.
    change (2 =? 1) with false. cbv iota.
    destruct (Z.eqb_spec f 2) as [E|E].
    + replace (1 * 2 <=? f) with true by (symmetry; apply Z.leb_le; lia).
      reflexivity.
    + replace (1 * 2 <=? f) with false by (symmetry; apply Z.leb_gt; lia).
      rewrite (issue_warnings_loop_cons _ _ _ _ _ _ Hscore), Qle_bool_ratio by lia.
      replace (2 * 2 <=? f) with false by (symmetry; apply Z.leb_gt; lia).
      reflexivity.
  - change (setitem 3 Severe (setitem (3 / 2) Medium (setitem 1 Mild [])))
      with [(1, Medium); (3, Severe)].
    rewrite (issue_warnings_loop_cons _ _ _ _ _ _ Hscore), Qle_bool_ratio by lia.
    change (3 =? 1) with false. cbv iota.
    destruct (Z.eqb_spec f 3) as [E|E].
    + replace (1 * 3 <=? f) with true by (symmetry; apply Z.leb_le; lia).
      reflexivity.
    + replace (1 * 3 <=? f) with false by (symmetry; apply Z.leb_gt; lia).
      rewrite (issue_warnings_loop_cons _ _ _ _ _ _ Hscore), Qle_bool_ratio by lia.
      replace (3 * 3 <=? f) with false by (symmetry; apply Z.leb_gt; lia).
      reflexivity.
Qed.

Lemma issue_warnings_with_small_retention_witness :
  exists s0, __init__ 120 3 2 1 = Ok s0
    /\ let env := example_node [1; 2; 3] false 1000 in
       let w := snd (record_each [(env, false)]
                       {| sensor := s0; trace := [] |}) in
       issue_warnings env w
       = (Raise (AttributeError "warning"),
          with_trace w [Invoked InIssueWarnings Medium]).
Proof.
  eexists. split; [reflexivity|]. cbv zeta.
  apply (issue_warnings_with_small_retention 1); [|lia].
  apply configured_record_each. cbn [sensor].
  eapply configured_init. reflexivity.
Defined.

(** *** Starting and stopping *)


(** *** Errors of a round *)

Lemma remove_absent (c : Z) (s : str) : ~ In c (remove c s).
Proof.
  unfold remove. intros H. apply filter_In in H as [_ H].
  now rewrite Z.eqb_refl in H.
Qed.

Lemma remove_subset (c d : Z) (s : str) : In d (remove c s) -> In d s.
Proof. unfold remove. intros H. now apply filter_In in H. Qed.

(** X15.  [handle_measurement_errors] returns normally after logging
    one message at level [warn]: a fixed prefix followed by the
    traceback without its braces.  The message has no brace in it. *)
Theorem handle_measurement_errors_logs_without_braces
  (traceback : str) (w : World) :
  let cleaned := remove 125 (remove 123 traceback) in
  let message := lit "Unhandled error during availability check: " ++ cleaned in
  handle_measurement_errors traceback w
  = (Ok tt, with_trace w [Logged warn message])
  /\ ~ In 123 message
  /\ ~ In 125 message
  /\ (~ In 123 traceback -> ~ In 125 traceback -> cleaned = traceback).
Proof.
  cbv zeta. split; [reflexivity|].
  assert (Hprefix : forall c, c = 123 \/ c = 125 ->
            ~ In c (lit "Unhandled error during availability check: ")).
  { intros c [->| ->]; now apply not_in_literal. }
  split; [|split].
  - intros H. apply in_app_or in H as [H|H].
    + exact (Hprefix 123 (or_introl eq_refl) H).
    + apply remove_subset in H. exact (remove_absent 123 traceback H).
  - intros H. apply in_app_or in H as [H|H].
    + exact (Hprefix 125 (or_intror eq_refl) H).
    + exact (remove_absent 125 _ H).
  - intros H1 H2. unfold remove.
    assert (Hid : forall c (s : str), ~ In c s ->
              filter (fun d => negb (d =? c)) s = s).
    { intros c s Hs. induction s as [|d s IH]; [reflexivity|]. cbn.
      destruct (Z.eqb_spec d c) as [->|_]; [exfalso; apply Hs; now left|].
      cbn. f_equal. apply IH. intros Hin. apply Hs. now right. }
    rewrite (Hid 123 traceback H1). exact (Hid 125 traceback H2).
Qed.

End MoreSensorFacts.

(** * Further properties of [parse_node_uri] *)

Section MoreUriFacts.
Import Py Urllib UriStatements.

Variable DEFAULT_REST_PORT : Z.
Variable is_checksum_address : str -> bool.
Variable normalize_NFKC : str -> str.

Local Abbreviation parse :=
  (parse_node_uri DEFAULT_REST_PORT is_checksum_address normalize_NFKC).

Lemma contains_In (c : Z) (s : str) : contains c s = true <-> In c s.
Proof.
  unfold contains. rewrite existsb_exists. split.
  - intros (x & Hx & E). apply Z.eqb_eq in E. now subst.
  - intros H. exists c. split; [exact H|apply Z.eqb_refl].
Qed.

Lemma contains_not_In (c : Z) (s : str) : contains c s = false <-> ~ In c s.
Proof.
  rewrite <- contains_In. destruct (contains c s); split; congruence.
Qed.

Lemma split_not_empty (sep : Z) (s : str) : split sep None s <> [].
Proof.
  destruct s as [|c s]; cbn [split option_map]; [discriminate|].
  destruct (c =? sep); [discriminate|].
  destruct (split sep None s); discriminate.
Qed.

Lemma split_one_part (sep : Z) (s a : str) :
  split sep None s = [a] -> s = a /\ ~ In sep a.
Proof.
  revert a. induction s as [|c s IH]; intros a H.
  - injection H as <-. split; [reflexivity|]. intros [].
  - cbn [split option_map] in H. destruct (Z.eqb_spec c sep) as [->|Hne].
    + injection H as _ H. now apply split_not_empty in H.
    + destruct (split sep None s) as [|p ps] eqn:E;
        [exfalso; exact (split_not_empty _ _ E)|].
      injection H as <- ->. destruct (IH p eq_refl) as [-> Hp].
      split; [reflexivity|]. intros [E'|Hin]; [congruence|contradiction].
Qed.

Lemma split_two_parts (sep : Z) (s a b : str) :
  split sep None s = [a; b] ->
  s = a ++ sep :: b /\ ~ In sep a /\ ~ In sep b.
Proof.
  revert a. induction s as [|c s IH]; intros a H; [discriminate|].
  cbn [split option_map] in H. destruct (Z.eqb_spec c sep) as [->|Hne].
  - injection H as <- H. apply split_one_part in H as [-> Hb].
    split; [reflexivity|]. split; [intros []|exact Hb].
  - destruct (split sep None s) as [|p ps] eqn:E; [discriminate|].
    injection H as <- ->. destruct (IH p eq_refl) as (-> & Hp & Hb).
    split; [reflexivity|]. split; [|exact Hb].
    intros [E'|Hin]; [congruence|contradiction].
Qed.

Lemma split_at_the_only_separator (sep : Z) (a b : str) :
  ~ In sep a -> ~ In sep b -> split sep None (a ++ sep :: b) = [a; b].
Proof.
  intros Ha Hb. induction a as [|c a IH]; cbn [app split option_map].
  - rewrite Z.eqb_refl. f_equal.
    induction b as [|d b IHb]; [reflexivity|]. cbn [split option_map].
    destruct (Z.eqb_spec d sep) as [->|_]; [exfalso; apply Hb; now left|].
    rewrite IHb; [reflexivity|]. intros H. apply Hb. now right.
  - destruct (Z.eqb_spec c sep) as [->|_]; [exfalso; apply Ha; now left|].
    rewrite IH; [reflexivity|]. intros H. apply Ha. now right.
Qed.

(** X16.  A locator with exactly one [@] is cut there.  If the text
    before it is not a checksum address, [parse_node_uri] raises
    [ValueError], whatever follows; if it is, the result is that of the
    text after the [@] parsed on its own, with the text before it as
    identity. *)
Theorem parse_node_uri_with_identity (identity rest : str) :
  ~ In 64 identity ->
  ~ In 64 rest ->
  parse (identity ++ lit "@" ++ rest)
  = if is_checksum_address identity
    then match parse rest with
         | Ok (hostname, port, _) => Ok (hostname, port, Some identity)
         | Raise e => Raise e
         end
    else Raise (ValueError "not a valid checksum address.").
Proof.
  intros Hid Hrest. change (lit "@" ++ rest) with (64 :: rest).
  unfold parse_node_uri.
  replace (contains 64 rest) with false
    by (symmetry; now apply contains_not_In).
  replace (contains 64 (identity ++ 64 :: rest)) with true
    by (symmetry; apply contains_In, in_or_app; right; now left).
  rewrite split_at_the_only_separator by assumption.
  cbn [unpack2 rbind].
  destruct (is_checksum_address identity); cbn [negb rbind]; [|reflexivity].
  cbv zeta.
  destruct (urlparse normalize_NFKC _) as [r|e]; cbn [rbind]; [|reflexivity].
  destruct (if is_empty (scheme r) then _ else _) as [r'|e]; cbn [rbind];
    [|reflexivity].
  destruct (negb (eqb (scheme r') (lit "https"))); [reflexivity|].
  destruct (port r') as [v|e]; reflexivity.
Qed.

(** X17.  Whatever [parse_node_uri] returns, the identity is [None]
    exactly for a locator without [@]; an identity that is returned is
    the text before the only [@] of the locator and has passed the
    checksum test; and the port is the default port or lies between 1
    and 65535. *)
Theorem parse_node_uri_result_is_checked
  (uri : str) (hostname : option str) (port : Z) (identity : option str) :
  parse uri = Ok (hostname, port, identity) ->
  (identity = None <-> ~ In 64 uri)
  /\ (forall a, identity = Some a ->
        is_checksum_address a = true
        /\ exists rest, uri = a ++ lit "@" ++ rest
                         /\ ~ In 64 a /\ ~ In 64 rest)
  /\ (port = DEFAULT_REST_PORT \/ 1 <= port <= 65535).
Proof.
  unfold parse_node_uri. intros H.
  destruct (if contains 64 uri then _ else _)
    as [[checksum_address uri']|e] eqn:E0; cbn [rbind] in H; [|discriminate].
  cbv zeta in H.
  destruct (urlparse normalize_NFKC _) as [r|e]; cbn [rbind] in H;
    [|discriminate].
  destruct (if is_empty (scheme r) then _ else _) as [r'|e]; cbn [rbind] in H;
    [|discriminate].
  destruct (negb (eqb (scheme r') (lit "https"))); [discriminate|].
  destruct (Urllib.port r') as [v|e] eqn:Ep; cbn [rbind] in H; [|discriminate].
  injection H as _ Hport Hid. subst identity.
  assert (Hrange : port = DEFAULT_REST_PORT \/ 1 <= port <= 65535).
  { subst port. unfold or_default. destruct v as [v|]; [|now left].
    destruct (Z.eqb_spec v 0); [now left|]. right.
    unfold Urllib.port in Ep. destruct (snd (_hostinfo r')); [|discriminate].
    destruct (int10 s) as [v'|]; cbn [rbind] in Ep; [|discriminate].
    destruct ((0 <=? v') && (v' <=? 65535)) eqn:Er; cbn [negb] in Ep;
      [|discriminate].
    injection Ep as ->. apply andb_true_iff in Er as [H1 H2].
    apply Z.leb_le in H1, H2. lia. }
  destruct (contains 64 uri) eqn:Hat.
  - destruct (unpack2 (split 64 None uri)) as [[a b]|] eqn:Eu;
      cbn [rbind] in E0; [|discriminate].
    destruct (is_checksum_address a) eqn:Hck; cbn [negb] in E0;
      [|discriminate].
    injection E0 as <- <-.
    assert (Hparts : split 64 None uri = [a; b]).
    { destruct (split 64 None uri) as [|x [|y [|z t]]]; try discriminate.
      cbn in Eu. now injection Eu as -> ->. }
    apply split_two_parts in Hparts as (Huri & Ha & Hb).
    split; [|split; [|exact Hrange]].
    + split; [discriminate|]. intros Hno. apply contains_In in Hat. contradiction.
    + intros a' Ha'. injection Ha' as <-. split; [exact Hck|].
      exists b. auto.
  - injection E0 as <- <-. split; [|split; [|exact Hrange]].
    + split; [intros _; now apply contains_not_In|reflexivity].
    + intros a Ha. discriminate.
Qed.

End MoreUriFacts.

Lemma parse_node_uri_with_identity_witness :
  let is_checksum_address := fun a => Py.eqb a (Py.lit "0xAbC") in
  let parse := parse_node_uri 9151 is_checksum_address (fun s => s) in
  parse (Py.lit "0xAbC" ++ Py.lit "@" ++ Py.lit "Peer.Example:4000")
  = if is_checksum_address (Py.lit "0xAbC")
    then match parse (Py.lit "Peer.Example:4000") with
         | Ok (hostname, port, _) => Ok (hostname, port, Some (Py.lit "0xAbC"))
         | Raise e => Raise e
         end
    else Raise (ValueError "not a valid checksum address.").
Proof.
  cbv zeta. apply parse_node_uri_with_identity.
  - now apply not_in_literal.
  - now apply not_in_literal.
Defined.

Lemma parse_node_uri_result_is_checked_witness :
  let is_checksum_address := fun a => Py.eqb a (Py.lit "0xAbC") in
  let uri := Py.lit "0xAbC@Peer.Example:4000" in
  (Some (Py.lit "0xAbC") = None <-> ~ In 64 uri)
  /\ (forall a, Some (Py.lit "0xAbC") = Some a ->
        is_checksum_address a = true
        /\ exists rest, uri = a ++ Py.lit "@" ++ rest
                         /\ ~ In 64 a /\ ~ In 64 rest)
  /\ (4000 = 9151 \/ 1 <= 4000 <= 65535).
Proof.
  cbv zeta.
  apply (parse_node_uri_result_is_checked 9151
           (fun a => Py.eqb a (Py.lit "0xAbC")) (fun s => s)
           (Py.lit "0xAbC@Peer.Example:4000")
           (Some (Py.lit "peer.example"))).
  reflexivity.
Defined.

(** * From an address to a locator and back *)

Section UriOfAddressFacts.
Import Py Urllib UriStatements.

Variable DEFAULT_REST_PORT : Z.
Variable is_checksum_address : str -> bool.
Variable normalize_NFKC : str -> str.

Local Abbreviation parse :=
  (parse_node_uri DEFAULT_REST_PORT is_checksum_address normalize_NFKC).

(** *** Integers as text *)

Lemma pos_size_bound (p : positive) : Z.pos p < 2 ^ Z.of_nat (Pos.size_nat p).
Proof.
  induction p as [p IH|p IH|]; cbn [Pos.size_nat];
    rewrite ?Nat2Z.inj_succ, ?Z.pow_succ_r by lia; lia.
Qed.

Lemma decimal_value_app (ds : str) (d : Z) :
  decimal_value (ds ++ [d]) = decimal_value ds * 10 + (d - 48).
Proof. unfold decimal_value. now rewrite fold_left_app. Qed.

Lemma dec_digits_spec (fuel : positive) :
  forall n, 0 <= n < 2 ^ Z.of_nat (Pos.size_nat fuel) ->
    Forall digit_char (dec_digits fuel n)
    /\ decimal_value (dec_digits fuel n) = n
    /\ exists ds, dec_digits fuel n = ds ++ [48 + n mod 10].
Proof.
  assert (Hsmall : forall n, 0 <= n -> n < 10 ->
            Forall digit_char [48 + n] /\ decimal_value [48 + n] = n
            /\ exists ds, [48 + n] = ds ++ [48 + n mod 10]).
  { intros n H0 H10. split; [|split].
    - repeat constructor; unfold digit_char; lia.
    - unfold decimal_value. cbn [fold_left]. lia.
    - exists []. cbn [app]. now rewrite Z.mod_small by lia. }
  assert (Hstep : forall f n,
            (forall m, 0 <= m < 2 ^ Z.of_nat (Pos.size_nat f) ->
               Forall digit_char (dec_digits f m)
               /\ decimal_value (dec_digits f m) = m
               /\ exists ds, dec_digits f m = ds ++ [48 + m mod 10]) ->
            0 <= n < 2 ^ Z.of_nat (S (Pos.size_nat f)) -> 10 <= n ->
            Forall digit_char (dec_digits f (n / 10) ++ [48 + n mod 10])
            /\ decimal_value (dec_digits f (n / 10) ++ [48 + n mod 10]) = n
            /\ exists ds, dec_digits f (n / 10) ++ [48 + n mod 10]
                          = ds ++ [48 + n mod 10]).
  { intros f n IH Hn H10.
    rewrite Nat2Z.inj_succ, Z.pow_succ_r in Hn by lia.
    destruct (IH (n / 10)) as (Hd & Hv & _);
      [Z.div_mod_to_equations; lia|].
    split; [|split].
    - apply Forall_app. split; [exact Hd|].
      repeat constructor; unfold digit_char; Z.div_mod_to_equations; lia.
    - rewrite decimal_value_app, Hv. Z.div_mod_to_equations. lia.
    - eexists. reflexivity. }
  induction fuel as [f IH|f IH|]; intros n Hn; cbn [dec_digits];
    destruct (Z.ltb_spec n 10); try (apply Hsmall; lia).
  - apply Hstep; [exact IH|exact Hn|lia].
  - apply Hstep; [exact IH|exact Hn|lia].
  - cbn in Hn. lia.
Qed.

Lemma dec_digits_of (n : Z) :
  0 <= n ->
  Forall digit_char (dec_digits (Z.to_pos n) n)
  /\ decimal_value (dec_digits (Z.to_pos n) n) = n
  /\ exists ds, dec_digits (Z.to_pos n) n = ds ++ [48 + n mod 10].
Proof.
  intros Hn. apply dec_digits_spec. split; [lia|].
  destruct n as [|p|p]; [cbn; lia| |lia].
  cbn [Z.to_pos]. apply pos_size_bound.
Qed.

Lemma int_digits_value (ds : str) :
  Forall digit_char ds ->
  forall acc after_digit,
    ds <> [] \/ after_digit = true ->
    int_digits acc after_digit ds
    = Some (fold_left (fun a d => a * 10 + (d - 48)) ds acc).
Proof.
  induction 1 as [|d ds Hd _ IH]; intros acc after_digit Hne.
  - destruct Hne as [Hne| ->]; [congruence|reflexivity].
  - cbn [int_digits fold_left]. unfold is_digit. unfold digit_char in Hd.
    replace ((48 <=? d) && (d <=? 57)) with true
      by (symmetry; apply andb_true_iff; split; apply Z.leb_le; lia).
    apply IH. now right.
Qed.

Lemma digit_not_space (d : Z) : digit_char d -> is_space d = false.
Proof.
  unfold digit_char, is_space. intros Hd.
  apply orb_false_iff. split; apply andb_false_iff.
  - right. apply Z.leb_gt. lia.
  - right. apply Z.leb_gt. lia.
Qed.

Lemma strip_nothing (c d : Z) (t u : str) :
  is_space c = false -> is_space d = false ->
  c :: t = u ++ [d] -> strip (c :: t) = c :: t.
Proof.
  intros Hc Hd E. unfold strip. cbn [lstrip]. rewrite Hc, E, rev_app_distr.
  cbn [rev app lstrip]. rewrite Hd. rewrite <- (rev_involutive u) at 2.
  change (d :: rev u) with ([d] ++ rev u).
  now rewrite rev_app_distr, rev_involutive.
Qed.

Lemma int10_unsigned (d : Z) (t : str) :
  digit_char d ->
  strip (d :: t) = d :: t ->
  int10 (d :: t)
  = match int_digits 0 false (d :: t) with
    | Some v => Ok v
    | None => Raise (ValueError "invalid literal for int() with base 10")
    end.
Proof.
  unfold digit_char. intros Hd Hstrip. unfold int10. rewrite Hstrip.
  assert (H : d = 48 \/ d = 49 \/ d = 50 \/ d = 51 \/ d = 52 \/ d = 53
              \/ d = 54 \/ d = 55 \/ d = 56 \/ d = 57) by lia.
  repeat (destruct H as [->|H]; [cbv iota beta;
    destruct (int_digits 0 false _) as [v|]; [f_equal; lia|reflexivity]|]).
  subst. cbv iota beta.
  destruct (int_digits 0 false _) as [v|]; [f_equal; lia|reflexivity].
Qed.

(** [int(str(n), 10) == n] *)
Lemma int10_repr_int (n : Z) : int10 (repr_int n) = Ok n.
Proof.
  unfold repr_int. destruct (Z.ltb_spec n 0) as [Hneg|Hpos].
  - destruct (dec_digits_of (- n)) as (Hd & Hv & (u & Hu)); [lia|].
    remember (dec_digits (Z.to_pos (- n)) (- n)) as ds eqn:Eds.
    assert (Hlast : digit_char (48 + - n mod 10))
      by (unfold digit_char; Z.div_mod_to_equations; lia).
    unfold int10.
    rewrite (strip_nothing 45 (48 + - n mod 10) ds (45 :: u));
      [|reflexivity|now apply digit_not_space|now rewrite Hu].
    rewrite (int_digits_value ds Hd) by (left; rewrite Hu; now destruct u).
    fold (decimal_value ds). rewrite Hv. f_equal. lia.
  - destruct (dec_digits_of n) as (Hd & Hv & (u & Hu)); [lia|].
    remember (dec_digits (Z.to_pos n) n) as ds eqn:Eds.
    assert (Hlast : digit_char (48 + n mod 10))
      by (unfold digit_char; Z.div_mod_to_equations; lia).
    destruct ds as [|d t]; [now destruct u|].
    assert (Hdigit : digit_char d) by now inversion Hd.
    rewrite (int10_unsigned d t Hdigit)
      by (apply (strip_nothing d (48 + n mod 10) t u);
          [now apply digit_not_space|now apply digit_not_space|exact Hu]).
    rewrite (int_digits_value (d :: t) Hd) by (left; discriminate).
    fold (decimal_value (d :: t)). now rewrite Hv.
Qed.

Lemma repr_int_chars (n : Z) :
  Forall (fun c => c = 45 \/ digit_char c) (repr_int n) /\ repr_int n <> [].
Proof.
  assert (Hweak : forall ds, Forall digit_char ds ->
            Forall (fun c => c = 45 \/ digit_char c) ds).
  { intros ds Hds. eapply Forall_impl; [|exact Hds]. intros c Hc. now right. }
  unfold repr_int. destruct (Z.ltb_spec n 0).
  - destruct (dec_digits_of (- n)) as (Hd & _ & _); [lia|].
    split; [|discriminate]. constructor; [now left|now apply Hweak].
  - destruct (dec_digits_of n) as (Hd & _ & (u & Hu)); [lia|].
    split; [now apply Hweak|]. rewrite Hu. now destruct u.
Qed.

(** *** A host and a port *)

Lemma contains_app (c : Z) (s t : str) :
  contains c (s ++ t) = contains c s || contains c t.
Proof. unfold contains. apply existsb_app. Qed.

Lemma contains_none (P : Z -> Prop) (c : Z) (s : str) :
  Forall P s -> (forall x, P x -> x <> c) -> contains c s = false.
Proof.
  intros Hs HP. induction Hs as [|x s Hx _ IH]; [reflexivity|].
  unfold contains. cbn [existsb]. fold (contains c s). rewrite IH.
  destruct (Z.eqb_spec c x) as [->|_]; [|reflexivity].
  now destruct (HP x Hx).
Qed.

Lemma partition_first (c : Z) (h d : str) :
  contains c h = false -> partition c (h ++ c :: d) = (h, true, d).
Proof.
  unfold contains. induction h as [|x h IH]; cbn [app partition existsb].
  - now rewrite Z.eqb_refl.
  - rewrite (Z.eqb_sym c x). destruct (x =? c); [discriminate|].
    cbn [orb]. intros H. now rewrite IH.
Qed.

Lemma urlparse_netloc (n : str) :
  isascii n = true ->
  (forall c, In c [47; 63; 35; 91; 93] -> contains c n = false) ->
  urlparse normalize_NFKC (lit "https://" ++ n)
  = Ok {| scheme := lit "https"; netloc := n; path := [];
          params := []; query := []; fragment := [] |}.
Proof.
  intros Hascii Habsent.
  unfold urlparse, urlsplit. rewrite split_scheme_https.
  change (eqb (upto 2 (lit "//" ++ n)) (lit "//")) with true. cbv iota.
  rewrite splitnetloc_bare by (apply Habsent; cbn; auto 6).
  rewrite (Habsent 91), (Habsent 93) by (cbn; auto 6).
  cbn [andb orb negb rbind]. cbv iota. cbn [contains existsb rbind].
  unfold _checknetloc. rewrite Hascii, orb_true_r.
  cbn [rbind s_path s_scheme s_netloc s_query s_fragment].
  reflexivity.
Qed.

Lemma bare_host_of_address (h : str) (p : Z) :
  bare_host h = true -> bare_host (InterfaceInfo.host (InterfaceInfo.__init__ h p)) = true.
Proof.
  intros Hb. rewrite init_host. now destruct (eqb h (lit "localhost")).
Qed.

(** X19.  The locator that an address prints parses back: for a bare
    host name and any port, [parse_node_uri] gives the same result on
    [uri] and on [formal_uri]; this result is the host in lower case
    with the port when the port is between 1 and 65535, with the default
    port when it is 0, and a [ValueError] for any other port. *)
Theorem address_uri_parses_back (h : str) (p : Z) :
  bare_host h = true ->
  let address := InterfaceInfo.__init__ h p in
  parse (InterfaceInfo.formal_uri address) = parse (InterfaceInfo.uri address)
  /\ parse (InterfaceInfo.uri address)
     = if (0 <=? p) && (p <=? 65535)
       then Ok (Some (lower (InterfaceInfo.host address)),
                (if p =? 0 then DEFAULT_REST_PORT else p), None)
       else Raise (ValueError "Port out of range 0-65535").
Proof.
  intros Hb0. cbv zeta.
  pose proof (bare_host_of_address h p Hb0) as Hb.
  set (host := InterfaceInfo.host (InterfaceInfo.__init__ h p)) in *.
  unfold InterfaceInfo.formal_uri, InterfaceInfo.uri.
  fold host. cbn [InterfaceInfo.port InterfaceInfo.__init__].
  set (d := repr_int p).
  change (lit ":" ++ d) with (58 :: d).
  change (lit "https" ++ lit "://" ++ host ++ 58 :: d)
    with (lit "https://" ++ host ++ 58 :: d).
  unfold bare_host in Hb. apply andb_true_iff in Hb as [Hne Hh].
  apply negb_true_iff in Hne.
  destruct (repr_int_chars p) as [Hd Hdne]. fold d in Hd, Hdne.
  assert (Hdc : forall c, In c [64; 47; 63; 35; 91; 93] ->
                          contains c d = false).
  { intros c Hin. apply (contains_none _ c d Hd).
    intros x Hx E. subst x. unfold digit_char in Hx. cbn [In] in Hin. lia. }
  assert (Hda : isascii d = true).
  { unfold isascii. apply forallb_forall. intros x Hx.
    rewrite Forall_forall in Hd. destruct (Hd x Hx) as [->|Hdig];
      [reflexivity|]. unfold digit_char in Hdig.
    apply andb_true_iff. split; [apply Z.leb_le|apply Z.ltb_lt]; lia. }
  set (n := host ++ 58 :: d).
  assert (Hn : forall c, In c [64; 47; 63; 35; 91; 93] ->
                         contains c n = false).
  { intros c Hin. unfold n. rewrite contains_app.
    assert (Hspecial : contains c (lit "@:/?#[]%") = true).
    { cbn [In] in Hin.
      repeat (destruct Hin as [<-|Hin]; [reflexivity|]). contradiction. }
    rewrite (host_char_absent host c Hh Hspecial). cbn [orb].
    unfold contains. cbn [existsb]. fold (contains c d).
    rewrite (Hdc c Hin).
    destruct (Z.eqb_spec c 58); [cbn [In] in Hin; lia|reflexivity]. }
  assert (Hnascii : isascii n = true).
  { unfold n, isascii. rewrite forallb_app. cbn [forallb].
    fold (isascii host). fold (isascii d).
    now rewrite (host_char_isascii host Hh), Hda. }
  assert (Hstart : startswith (lit "https://") n = false).
  { destruct (startswith (lit "https://") n) eqn:E; [|reflexivity].
    apply startswith_app in E as [rest E]. exfalso.
    assert (Hp1 : partition 58 n = (host, true, d))
      by (apply partition_first, (host_char_absent host 58 Hh); reflexivity).
    rewrite E in Hp1.
    change (lit "https://" ++ rest)
      with (lit "https" ++ 58 :: (47 :: 47 :: rest)) in Hp1.
    rewrite partition_first in Hp1 by reflexivity.
    injection Hp1 as _ Hd'. rewrite <- Hd' in Hd.
    inversion Hd as [|x l [Hx|Hx] _]; [discriminate|].
    unfold digit_char in Hx. lia. }
  assert (Hparse : parse n
                   = if (0 <=? p) && (p <=? 65535)
                     then Ok (Some (lower host),
                              (if p =? 0 then DEFAULT_REST_PORT else p), None)
                     else Raise (ValueError "Port out of range 0-65535")).
  { unfold parse_node_uri.
    rewrite (Hn 64) by (cbn; auto). cbn [rbind].
    rewrite Hstart. cbn [negb].
    rewrite (urlparse_netloc n Hnascii)
      by (intros c Hc; apply Hn; cbn [In] in *; tauto).
    cbn [rbind scheme].
    change (is_empty (lit "https")) with false. cbv iota. cbn [rbind scheme].
    change (eqb (lit "https") (lit "https")) with true. cbn [negb].
    set (r := {| scheme := lit "https"; netloc := n; path := [];
                 params := []; query := []; fragment := [] |}).
    assert (Hinfo : _hostinfo r = (host, Some d)).
    { unfold _hostinfo. cbn [netloc r].
      rewrite rpartition_absent by (apply Hn; cbn; auto 7).
      rewrite (partition_absent 91) by (apply Hn; cbn; auto 7).
      unfold n. rewrite partition_first
        by (apply (host_char_absent host 58 Hh); reflexivity).
      destruct d; [congruence|reflexivity]. }
    unfold hostname, port. rewrite Hinfo. cbn [fst snd]. rewrite Hne.
    rewrite (partition_absent 37)
      by (apply (host_char_absent host 37 Hh); reflexivity).
    cbn [app]. rewrite app_nil_r.
    unfold d. rewrite int10_repr_int. cbn [rbind].
    destruct ((0 <=? p) && (p <=? 65535)); cbn [negb rbind or_default];
      reflexivity. }
  split; [|exact Hparse].
  unfold parse_node_uri.
  replace (contains 64 (lit "https://" ++ n)) with false
    by (rewrite contains_app, (Hn 64) by (cbn; auto); reflexivity).
  rewrite (Hn 64) by (cbn; auto). cbn [rbind].
  rewrite Hstart. cbn [negb].
  replace (startswith (lit "https://") (lit "https://" ++ n)) with true;
    [reflexivity|].
  symmetry. generalize (lit "https://"). intros pre.
  induction pre as [|c pre IH]; cbn [app startswith]; [reflexivity|].
  now rewrite Z.eqb_refl, IH.
Qed.

End UriOfAddressFacts.

Lemma address_uri_parses_back_witness :
  UriStatements.bare_host (Py.lit "localhost") = true
  /\ let parse := parse_node_uri 9151 (fun _ => false) (fun s => s) in
     let address := InterfaceInfo.__init__ (Py.lit "localhost") 4000 in
     parse (InterfaceInfo.formal_uri address) = parse (InterfaceInfo.uri address)
     /\ parse (InterfaceInfo.uri address)
        = if (0 <=? 4000) && (4000 <=? 65535)
          then Ok (Some (Py.lower (InterfaceInfo.host address)),
                   (if 4000 =? 0 then 9151 else 4000), None)
          else Raise (ValueError "Port out of range 0-65535").
Proof.
  split; [reflexivity|]. cbv zeta.
  apply (address_uri_parses_back 9151 (fun _ => false) (fun s => s)
           (Py.lit "localhost") 4000).
  reflexivity.
Defined.

(** * Frame properties of the sensor *)

Section SensorFrameFacts.
Import Py Collections AvailabilitySensor Statements RoundStatements.
Local Open Scope sensor_scope.

Lemma methods_keep_sensor (env : Env) (w : World) :
  sensor (snd (score w)) = sensor w
  /\ (forall quantity, sensor (snd (sample env quantity w)) = sensor w)
  /\ sensor (snd (measure env w)) = sensor w
  /\ sensor (snd (issue_warnings env w)) = sensor w
  /\ (forall a, sensor (snd (call a env w)) = sensor w).
Proof.
  pose (R := fun s s' : Sensor => s' = s).
  pose (P := fun _ : Event => True).
  assert (Hrefl : forall s, R s s) by reflexivity.
  assert (Htrans : forall s1 s2 s3, R s1 s2 -> R s2 s3 -> R s1 s3)
    by (unfold R; congruence).
  repeat split.
  - exact (proj1 (respects_score R P Hrefl Htrans w)).
  - intros quantity.
    exact (proj1 (respects_sample R P Hrefl Htrans (fun _ => I) env quantity w)).
  - exact (proj1 (respects_measure R P Hrefl Htrans (fun _ => I) (fun _ => I)
                    env w)).
  - exact (proj1 (respects_issue_warnings R P Hrefl Htrans (fun _ _ => I)
                    (fun _ => I) env w)).
  - intros a.
    exact (proj1 (respects_call R P Hrefl (fun _ _ => I) a env w)).
Qed.

(** X20.  Only [record], [start] and [stop] write to the sensor:
    [score], [sample], [measure], [issue_warnings] and the three
    escalation actions leave it as it was, whether they return or
    raise. *)
Theorem readers_keep_the_sensor (env : Env) (w : World) :
  sensor (snd (score w)) = sensor w
  /\ (forall quantity, sensor (snd (sample env quantity w)) = sensor w)
  /\ sensor (snd (measure env w)) = sensor w
  /\ sensor (snd (issue_warnings env w)) = sensor w
  /\ (forall a, sensor (snd (call a env w)) = sensor w).
Proof. apply methods_keep_sensor. Qed.

(** X21.  A round of [maintain], whatever the collaborators do and
    however it ends, leaves the sensor as it was or appends one record
    stamped with the current time; it never removes, reorders or
    rewrites anything else. *)
Theorem maintain_appends_at_most_one_record (env : Env) (w : World) :
  sensor (snd (maintain env w)) = sensor w
  \/ exists result,
       sensor (snd (maintain env w))
       = set__records (append {| time := now env; result := result |})
                      (sensor w).
Proof.
  destruct (known_nodes env) as [|p ps] eqn:Hknown.
  - left. rewrite (maintain_alone env w Hknown).
    destruct (lonely env); [reflexivity|].
    destruct (__start_time (sensor w)); [|reflexivity].
    destruct (MAXIMUM_ALONE_TIME <=? now env - z); reflexivity.
  - rewrite (maintain_populated env w p ps Hknown).
    destruct (len (p :: ps) <? sample_size (sensor w)); [now left|].
    destruct (methods_keep_sensor env w) as (_ & _ & Hm & _).
    destruct (measure env w) as [[b|e] w1] eqn:Em; cbn [snd] in Hm.
    + right. exists b.
      assert (Hround : bind (measure env)
                         (fun result => bind (record env result)
                                          (fun _ => issue_warnings env)) w
                       = issue_warnings env
                           {| sensor := set__records
                                (append {| time := now env; result := b |})
                                (sensor w1);
                              trace := trace w1 |}).
      { unfold bind at 1. rewrite Em. reflexivity. }
      rewrite Hround.
      destruct (methods_keep_sensor env
                  {| sensor := set__records
                       (append {| time := now env; result := b |}) (sensor w1);
                     trace := trace w1 |}) as (_ & _ & _ & Hi & _).
      rewrite Hi. cbn [sensor]. now rewrite Hm.
    + left. unfold bind at 1. now rewrite Em.
Qed.

(** X22.  A sensor that has never been started has no start time:
    a round with no known peer on a node that is not meant to be alone
    then fails on [now - None] with [TypeError], before any action is
    called, and leaves everything as it was. *)
Theorem maintain_before_start_raises (env : Env) (w : World) :
  known_nodes env = [] ->
  lonely env = false ->
  __start_time (sensor w) = None ->
  maintain env w
  = (Raise (TypeError "unsupported operand type(s) for -: 'int' and 'NoneType'"),
     w).
Proof.
  intros Hknown Hlonely Hstart.
  now rewrite (maintain_alone env w Hknown), Hlonely, Hstart.
Qed.

Lemma maintain_before_start_raises_witness :
  exists s0, __init__ 120 3 2 10 = Ok s0
    /\ let env := example_node [] false 1000 in
       let w := {| sensor := s0; trace := [] |} in
       maintain env w
       = (Raise (TypeError "unsupported operand type(s) for -: 'int' and 'NoneType'"),
          w).
Proof.
  eexists. split; [reflexivity|]. cbv zeta.
  apply maintain_before_start_raises; reflexivity.
Defined.

End SensorFrameFacts.

(** * The encoding does not confuse two addresses *)

Section EncodingFacts.
Import Py InterfaceInfo AddressStatements.

Lemma bytes_of_valid_address (h : str) (p : Z) :
  Forall scalar_value h -> ~ In 58 h -> 0 <= p < 2 ^ 32 ->
  exists b,
    __bytes__ (__init__ h p) = Ok b
    /\ from_bytes b = Ok (__init__ h p).
Proof.
  intros Hs Hc Hp.
  destruct (from_bytes_reads_all h p Hs Hc) as (hb & Henc & _ & Hread).
  exists (hb ++ 58 :: digits_big 4 p). split.
  - unfold __bytes__. rewrite Henc. cbn [rbind port __init__].
    now rewrite to_bytes_big_ok by (cbn; lia).
  - rewrite Hread, from_bytes_digits by (cbn; lia). reflexivity.
Qed.

(** X23.  Two addresses with colon-free hosts and ports below [2^32]
    that have the same encoding are the same address. *)
Theorem bytes_tells_addresses_apart (h1 h2 : str) (p1 p2 : Z) :
  Forall scalar_value h1 -> ~ In 58 h1 -> 0 <= p1 < 2 ^ 32 ->
  Forall scalar_value h2 -> ~ In 58 h2 -> 0 <= p2 < 2 ^ 32 ->
  __bytes__ (__init__ h1 p1) = __bytes__ (__init__ h2 p2) ->
  __init__ h1 p1 = __init__ h2 p2.
Proof.
  intros Hs1 Hc1 Hp1 Hs2 Hc2 Hp2 Heq.
  destruct (bytes_of_valid_address h1 p1 Hs1 Hc1 Hp1) as (b1 & Hb1 & Hd1).
  destruct (bytes_of_valid_address h2 p2 Hs2 Hc2 Hp2) as (b2 & Hb2 & Hd2).
  rewrite Hb1, Hb2 in Heq. injection Heq as ->. congruence.
Qed.

Lemma bytes_tells_addresses_apart_witness :
  __bytes__ (__init__ (lit "localhost") 9151)
  = __bytes__ (__init__ (lit "127.0.0.1") 9151)
  /\ __init__ (lit "localhost") 9151 = __init__ (lit "127.0.0.1") 9151.
Proof.
  split; [reflexivity|].
  apply bytes_tells_addresses_apart.
  - repeat constructor; cbn; lia.
  - now apply not_in_literal.
  - cbn. lia.
  - repeat constructor; cbn; lia.
  - now apply not_in_literal.
  - cbn. lia.
  - reflexivity.
Defined.

End EncodingFacts.

(** * The token supply over time *)

Section SupplyFacts.
Import StandardTokenEconomics.

Variable supply_formula : Z -> Z -> Z -> outcome Z.

Local Abbreviation period_error :=
  (ValueError "Period must be a positive integer").

(** X24.  [token_supply_at_period] accepts period 0 and raises
    [ValueError] for negative periods only.  [rewards_during_period]
    asks for the period before, so it raises [ValueError] for period 0
    as well as for negative periods; for a period of at least 1 it is
    the difference of the supplies at that period and at the one
    before, the initial supply cancelling out. *)
Theorem rewards_need_a_previous_period (self : t) (period : Z) :
  (period < 0 ->
   token_supply_at_period supply_formula self period = Raise period_error
   /\ cumulative_rewards_at_period supply_formula self period
      = Raise period_error
   /\ rewards_during_period supply_formula self period = Raise period_error)
  /\ (0 <= period ->
      token_supply_at_period supply_formula self period
      = supply_formula (erc20_initial_supply self) (token_halving self) period)
  /\ (period = 0 ->
      forall supply,
        supply_formula (erc20_initial_supply self) (token_halving self) 0
        = Ok supply ->
        cumulative_rewards_at_period supply_formula self 0
        = Ok (supply - erc20_initial_supply self)
        /\ rewards_during_period supply_formula self period
           = Raise period_error)
  /\ (1 <= period ->
      forall supply before,
        supply_formula (erc20_initial_supply self) (token_halving self) period
        = Ok supply ->
        supply_formula (erc20_initial_supply self) (token_halving self)
                       (period - 1)
        = Ok before ->
        rewards_during_period supply_formula self period
        = Ok (supply - before)).
Proof.
  unfold rewards_during_period, cumulative_rewards_at_period,
    token_supply_at_period.
  split; [|split; [|split]].
  - intros Hneg. destruct (Z.ltb_spec period 0); [|lia]. auto.
  - intros Hpos. destruct (Z.ltb_spec period 0); [lia|reflexivity].
  - intros -> supply Hs. cbn [Z.ltb Z.compare Z.sub Z.add Z.opp].
    rewrite Hs. cbn [rbind]. auto.
  - intros Hp supply before Hs Hb.
    destruct (Z.ltb_spec period 0); [lia|].
    destruct (Z.ltb_spec (period - 1) 0); [lia|].
    rewrite Hs, Hb. cbn [rbind]. f_equal. lia.
Qed.

End SupplyFacts.

Lemma rewards_need_a_previous_period_witness :
  let formula := fun S_0 T_half t => Ok (S_0 + T_half * t) in
  let self := {| StandardTokenEconomics.erc20_initial_supply := 1000;
                 StandardTokenEconomics.token_halving := 2 |} in
  StandardTokenEconomics.rewards_during_period formula self 0
  = Raise (ValueError "Period must be a positive integer")
  /\ StandardTokenEconomics.rewards_during_period formula self 3
     = Ok (1006 - 1004).
Proof.
  cbv zeta. split.
  - eapply (proj1 (proj2 (proj2 (rewards_need_a_previous_period _ _ 0))));
      reflexivity.
  - eapply (proj2 (proj2 (proj2 (rewards_need_a_previous_period _ _ 3))));
      [lia|reflexivity|reflexivity].
Defined.
